(** * Art-Net to Home Assistant bridge: receiver, entity mapper, controller

    A shallow embedding of [artnet_receiver.py], [entity_mapper.py] and the
    dispatch loop of [bridge_controller.py], with the properties of the
    specification stated over it.

    Conventions.
    - Python [int] is [Z]; a [bytes] object is a [list byte].
    - A Python [dict] whose iteration order is observable (the mapping table)
      is an association list in insertion order; a [dict] that is only looked
      up (channel data, last command times) is a [gmap].
    - Python [float] is IEEE binary64, taken from the Standard Library's
      [SpecFloat] (round to nearest, ties to even).
    - Clock readings of [time.time()] are exact rationals, in seconds. *)

From Stdlib Require Import ZArith QArith Qround Lqa List Ascii String Strings.Byte.
From Stdlib Require Import Floats.SpecFloat.
From stdpp Require Import gmap strings list.

Local Open Scope Z_scope.

(** ** Python list and bytes helpers *)

Module Py.

(** [len(l)] as a Python int. *)
Definition len {A} (l : list A) : Z := Z.of_nat (length l).

(** Normalisation of one slice bound: a negative bound counts from the
    end, and every bound is clamped to [0, len]. *)
Definition clamp (n i : Z) : Z :=
  if i <? 0 then Z.max (i + n) 0 else Z.min i n.

(** [l[i:j]] with step 1. *)
Definition slice {A} (l : list A) (i j : Z) : list A :=
  let lo := clamp (len l) i in
  let hi := clamp (len l) j in
  take (Z.to_nat (hi - lo)) (drop (Z.to_nat lo) l).

(** [l[:j]] *)
Definition slice_to {A} (l : list A) (j : Z) : list A := slice l 0 j.

(** [l[i]] for an index already known to be in range ([d] is never
    returned there). *)
Definition item {A} (d : A) (l : list A) (i : Z) : A :=
  nth (Z.to_nat i) l d.

(** The int value of one byte, as [data[i]] or [list(data)] gives it. *)
Definition byte_val (b : byte) : Z := Z.of_N (Byte.to_N b).

(** *** A [dict] with string keys, in insertion order *)

(** [d.get(k)] *)
Fixpoint dict_get {V} (k : string) (d : list (string * V)) : option V :=
  match d with
  | [] => None
  | (k', v) :: rest => if String.eqb k k' then Some v else dict_get k rest
  end.

(** [k in d] *)
Definition dict_mem {V} (k : string) (d : list (string * V)) : bool :=
  match dict_get k d with Some _ => true | None => false end.

(** [d[k] = v]: an existing key keeps its place, a new key goes last. *)
Fixpoint dict_set {V} (k : string) (v : V) (d : list (string * V))
  : list (string * V) :=
  match d with
  | [] => [(k, v)]
  | (k', v') :: rest =>
      if String.eqb k k' then (k', v) :: rest else (k', v') :: dict_set k v rest
  end.

(** [d.values()], in iteration order. *)
Definition dict_values {V} (d : list (string * V)) : list V := d.*2.

(** [del d[k]] *)
Definition dict_del {V} (k : string) (d : list (string * V))
  : list (string * V) :=
  List.filter (fun kv => negb (String.eqb k kv.1)) d.

(** [d.keys()], in iteration order. *)
Definition dict_keys {V} (d : list (string * V)) : list string := d.*1.

(** [s.split('.')[0]]: the part of [s] before its first dot. *)
Fixpoint split_dot_head (s : string) : string :=
  match s with
  | EmptyString => EmptyString
  | String c rest =>
      if Ascii.eqb c "."%char then EmptyString
      else String c (split_dot_head rest)
  end.

End Py.

#[global] Instance byte_eq_dec : EqDecision byte := Byte.byte_eq_dec.

(** ** artnet_receiver.py *)

Module ArtNet.

(** [ARTNET_HEADER = b'Art-Net\x00'] *)
Definition ARTNET_HEADER : list byte :=
  [x41; x72; x74; x2d; x4e; x65; x74; x00].

(** [ARTNET_DMX = 0x5000] *)
Definition ARTNET_DMX : Z := 0x5000.

(** The receiver object. [callback] says whether a callback is
    registered; [calls] is the log of the channel dictionaries the
    callback was invoked with, oldest first. An exception raised by the
    callback is caught and logged by the receiver, so the callback has no
    other effect on the receiver. *)
Record ArtNetReceiver := mkReceiver {
  universe : Z;
  dmx_data : list Z;
  callback : bool;
  calls : list (gmap Z Z)
}.

(** [__init__]: [dmx_data = [0] * 512], no callback. *)
Definition init (u : Z) : ArtNetReceiver :=
  {| universe := u; dmx_data := replicate 512 0; callback := false;
     calls := [] |}.

Definition set_callback (r : ArtNetReceiver) : ArtNetReceiver :=
  {| universe := universe r; dmx_data := dmx_data r; callback := true;
     calls := calls r |}.

(** [struct.unpack('<H', data[i:i+2])[0]] *)
Definition unpack_le16 (data : list byte) (i : Z) : Z :=
  Z.lor (Py.byte_val (Py.item x00 data i))
        (Z.shiftl (Py.byte_val (Py.item x00 data (i + 1))) 8).

(** [struct.unpack('>H', data[i:i+2])[0]] *)
Definition unpack_be16 (data : list byte) (i : Z) : Z :=
  Z.lor (Z.shiftl (Py.byte_val (Py.item x00 data i)) 8)
        (Py.byte_val (Py.item x00 data (i + 1))).

(** The padding loop [while len(new_dmx_data) < 512: append(0)]. *)
Definition pad512 (l : list Z) : list Z :=
  l ++ replicate (512 - length l) 0.

(** [{i+1: val for i, val in enumerate(dmx_data)}] *)
Definition channel_dict (l : list Z) : gmap Z Z :=
  list_to_map (imap (fun i v => (Z.of_nat i + 1, v)) l).

(** First half of [_parse_artnet_packet]: the checks and the extraction
    of [new_dmx_data]. [None] is an early [return]. *)
Definition decode (u : Z) (data : list byte) : option (list Z) :=
  if Py.len data <? 18 then None
  else if negb (bool_decide (Py.slice_to data 8 = ARTNET_HEADER)) then None
  else
    let opcode := unpack_le16 data 8 in
    if negb (opcode =? ARTNET_DMX) then None
    else
      let universe_low := Py.byte_val (Py.item x00 data 14) in
      let universe_high := Py.byte_val (Py.item x00 data 15) in
      let packet_universe := Z.lor universe_low (Z.shiftl universe_high 8) in
      if negb (packet_universe =? u) then None
      else
        let length := unpack_be16 data 16 in
        let dmx_start := 18 in
        let dmx_end := dmx_start + length in
        if Py.len data <? dmx_end then None
        else
          let new_dmx_data := Py.byte_val <$> Py.slice data dmx_start dmx_end in
          Some (pad512 new_dmx_data).

(** Second half of [_parse_artnet_packet]: the change check, the update
    of the stored frame and the callback. *)
Definition deliver (r : ArtNetReceiver) (new_dmx_data : list Z)
  : ArtNetReceiver :=
  if bool_decide (new_dmx_data <> dmx_data r) then
    {| universe := universe r;
       dmx_data := new_dmx_data;
       callback := callback r;
       calls := if callback r
                then calls r ++ [channel_dict new_dmx_data]
                else calls r |}
  else r.

Definition _parse_artnet_packet (r : ArtNetReceiver) (data : list byte)
  : ArtNetReceiver :=
  match decode (universe r) data with
  | None => r
  | Some new_dmx_data => deliver r new_dmx_data
  end.

(** The receive loop over the datagrams that arrive, in order. *)
Definition receive_all (r : ArtNetReceiver) (datagrams : list (list byte))
  : ArtNetReceiver :=
  foldl _parse_artnet_packet r datagrams.

(** Decoded frames handed to the second half, in order. *)
Definition deliver_all (r : ArtNetReceiver) (frames : list (list Z))
  : ArtNetReceiver :=
  foldl deliver r frames.

(** Number of callback invocations so far. *)
Definition fired (r : ArtNetReceiver) : nat := length (calls r).

Definition get_channel (r : ArtNetReceiver) (channel : Z) : Z :=
  if (1 <=? channel) && (channel <=? 512)
  then Py.item 0 (dmx_data r) (channel - 1)
  else 0.

Definition get_channels (r : ArtNetReceiver) (start count : Z) : list Z :=
  if (start <? 1) || (512 <? start) then []
  else
    let end_ := Z.min (start + count) 512 in
    Py.slice (dmx_data r) (start - 1) end_.

(** A datagram with the Art-Net header, the DMX opcode, protocol version
    14, universe [u] (below 256) and the given payload. *)
Definition dmx_packet (u_low : byte) (len_hi len_lo : byte)
  (payload : list byte) : list byte :=
  ARTNET_HEADER ++ [x00; x50; x00; x0e; x00; x00; u_low; x00; len_hi; len_lo]
    ++ payload.

(** How many frames of a sequence differ from the frame before them, the
    frame before the first one being [prev]. *)
Fixpoint changes (prev : list Z) (frames : list (list Z)) : nat :=
  match frames with
  | [] => 0%nat
  | f :: rest => ((if bool_decide (f <> prev) then 1 else 0) + changes f rest)%nat
  end.

(** Example datagrams for universe 0: an empty payload, the one-byte
    payload [01], and a payload of 513 bytes [01]. *)
Definition blackout_packet : list byte := dmx_packet x00 x00 x00 [].
Definition one_packet : list byte := dmx_packet x00 x00 x01 [x01].
Definition oversized_packet : list byte :=
  dmx_packet x00 x02 x01 (replicate 513 x01).

End ArtNet.

(** ** Python floats: IEEE binary64 *)

Module Float64.

Definition prec : Z := 53.
Definition emax : Z := 1024.

(** The float nearest to an int (ties to even); infinite when the int is
    out of range. *)
Definition of_int (z : Z) : spec_float := binary_normalize prec emax z 0 false.

(** An int operand of a float operation; [None] is Python's
    [OverflowError] (int too large to convert to float). *)
Definition int_to_float (z : Z) : option spec_float :=
  match of_int z with
  | S754_infinity _ => None
  | f => Some f
  end.

Definition add : spec_float -> spec_float -> spec_float := SFadd prec emax.
Definition mul : spec_float -> spec_float -> spec_float := SFmul prec emax.
Definition div : spec_float -> spec_float -> spec_float := SFdiv prec emax.

(** [int(f)]: truncation toward zero; [None] is the exception Python raises
    for an infinity or a NaN. *)
Definition to_int (f : spec_float) : option Z :=
  match f with
  | S754_zero _ => Some 0
  | S754_finite s m e =>
      let a := Z.shiftl (Zpos m) e in
      Some (if s then - a else a)
  | S754_infinity _ | S754_nan => None
  end.

End Float64.

(** ** entity_mapper.py *)

Module Mapper.

Inductive EntityType :=
  SWITCH | DIMMER | RGB | RGBW | RGBWW | COLOR_TEMP | UNKNOWN.

#[global] Instance EntityType_eq_dec : EqDecision EntityType.
Proof. solve_decision. Defined.

(** [rgb_channels] is [[]] when the constructor is given none
    ([__post_init__]); [name] defaults to the empty string. *)
Record EntityMapping := mkMapping {
  entity_id : string;
  entity_type : EntityType;
  dmx_channel : Z;
  name : string;
  rgb_channels : list Z
}.

(** What the mapper reads of one entity state of Home Assistant. Every
    state the client returns carries an ['entity_id']. *)
Record EntityState := mkState {
  st_entity_id : string;
  (** [attributes.get('friendly_name')] *)
  st_friendly_name : option string;
  (** [attributes.get('supported_color_modes', [])] *)
  st_supported_color_modes : list string;
  (** ['brightness' in attributes] *)
  st_has_brightness : bool
}.

(** The mapper object. [save_mappings] writes [mappings] to the JSON file
    and leaves the object unchanged; the file is not modelled. *)
Record EntityMapper := mkMapper {
  mappings : list (string * EntityMapping);
  channel_to_entity : gmap Z string
}.

Definition SWITCH_THRESHOLD : Z := 125.

Definition _rebuild_channel_index (ms : list (string * EntityMapping))
  : gmap Z string :=
  foldl (fun idx '(eid, mapping) =>
           foldl (fun idx channel => <[channel := eid]> idx)
                 (<[dmx_channel mapping := eid]> idx)
                 (rgb_channels mapping))
        ∅ ms.

Definition with_mappings (ms : list (string * EntityMapping)) : EntityMapper :=
  {| mappings := ms; channel_to_entity := _rebuild_channel_index ms |}.

Definition detect_entity_type (entity_state : EntityState) : EntityType :=
  let domain := Py.split_dot_head (st_entity_id entity_state) in
  let supported_features := st_supported_color_modes entity_state in
  if String.eqb domain "switch" then SWITCH
  else if String.eqb domain "light" then
    if bool_decide ("rgbw"%string ∈ supported_features)
       || bool_decide ("rgbww"%string ∈ supported_features) then RGBW
    else if bool_decide ("rgb"%string ∈ supported_features)
            || bool_decide ("hs"%string ∈ supported_features) then RGB
    else if bool_decide ("brightness"%string ∈ supported_features) then DIMMER
    else if st_has_brightness entity_state then DIMMER
    else SWITCH
  else UNKNOWN.

(** The mapping built for a new entity at the cursor, and the cursor after
    it: the [if]/[elif]/[else] on [entity_type] in the loop body. *)
Definition allocate (eid : string) (entity_type : EntityType) (nm : string)
  (current_channel : Z) : EntityMapping * Z :=
  match entity_type with
  | RGB =>
      (mkMapping eid entity_type current_channel nm
         [current_channel + 1; current_channel + 2; current_channel + 3],
       current_channel + 4)
  | RGBW =>
      (mkMapping eid entity_type current_channel nm
         [current_channel + 1; current_channel + 2; current_channel + 3;
          current_channel + 4],
       current_channel + 5)
  | _ =>
      (mkMapping eid entity_type current_channel nm [], current_channel + 1)
  end.

(** One iteration of the loop of [auto_assign_channels] on the pair of the
    table and [current_channel]. *)
Definition assign_one (acc : list (string * EntityMapping) * Z)
  (entity_state : EntityState) : list (string * EntityMapping) * Z :=
  let '(ms, current_channel) := acc in
  let eid := st_entity_id entity_state in
  if Py.dict_mem eid ms then acc
  else
    let entity_type := detect_entity_type entity_state in
    let nm := default eid (st_friendly_name entity_state) in
    let '(mapping, next_channel) := allocate eid entity_type nm current_channel in
    (Py.dict_set eid mapping ms, next_channel).

(** The loop of [auto_assign_channels]: the table and the cursor after it. *)
Definition assign_loop (ms : list (string * EntityMapping)) (start_channel : Z)
  (entities : list EntityState) : list (string * EntityMapping) * Z :=
  foldl assign_one (ms, start_channel) entities.

Definition auto_assign_channels (self : EntityMapper)
  (entities : list EntityState) (start_channel : Z) : EntityMapper :=
  with_mappings (assign_loop (mappings self) start_channel entities).1.

(** The auxiliary channels [update_mapping] writes for a type that has
    them; [None] for the other types. *)
Definition channels_after (entity_type : EntityType) (dmx_channel : Z)
  : option (list Z) :=
  match entity_type with
  | RGB => Some [dmx_channel + 1; dmx_channel + 2; dmx_channel + 3]
  | RGBW => Some [dmx_channel + 1; dmx_channel + 2; dmx_channel + 3;
                  dmx_channel + 4]
  | RGBWW => Some [dmx_channel + 1; dmx_channel + 2; dmx_channel + 3;
                   dmx_channel + 4; dmx_channel + 5]
  | _ => None
  end.

(** [update_mapping(entity_id, dmx_channel, entity_type=None)] *)
Definition update_mapping (self : EntityMapper) (eid : string)
  (channel : Z) (new_type : option EntityType) : EntityMapper :=
  match Py.dict_get eid (mappings self) with
  | Some mapping =>
      let moved :=
        mkMapping (entity_id mapping) (entity_type mapping) channel
          (name mapping)
          (default (rgb_channels mapping)
             (channels_after (entity_type mapping) channel)) in
      let updated :=
        match new_type with
        | Some t =>
            mkMapping (entity_id moved) t channel (name moved)
              (default [] (channels_after t channel))
        | None => moved
        end in
      with_mappings (Py.dict_set eid updated (mappings self))
  | None =>
      let mapping := mkMapping eid (default UNKNOWN new_type) channel "" [] in
      with_mappings (Py.dict_set eid mapping (mappings self))
  end.

Inductive Action := turn_on | turn_off.

(** A command dictionary; a key that is absent is [None]. *)
Record Command := mkCommand {
  cmd_entity_id : string;
  action : Action;
  brightness : option Z;
  rgb_color : option (list Z);
  rgbw_color : option (list Z);
  rgbww_color : option (list Z);
  kelvin : option Z
}.

Definition off_command (eid : string) : Command :=
  mkCommand eid turn_off None None None None None.

Definition dmx_to_ha_switch (dmx_value : Z) : bool :=
  SWITCH_THRESHOLD <? dmx_value.

Definition dmx_to_ha_brightness (dmx_value : Z) : Z := dmx_value.

(** [int(2000 + (dmx_value / 255.0) * 4500)] *)
Definition kelvin_of (dmx_value : Z) : option Z :=
  match Float64.int_to_float dmx_value with
  | None => None
  | Some v =>
      Float64.to_int
        (Float64.add (Float64.of_int 2000)
           (Float64.mul (Float64.div v (Float64.of_int 255))
              (Float64.of_int 4500)))
  end.

(** What one iteration of the loop of [get_entity_commands] does for a
    mapping whose primary channel has the value [dmx_value]: it raises,
    appends nothing, or appends one command. *)
Inductive Emitted := Raise | Nothing | Emit (c : Command).

(** [dmx_data.get(channel, 0)] *)
Definition get0 (dmx_data : gmap Z Z) (channel : Z) : Z :=
  default 0 (dmx_data !! channel).

Definition command_for (mapping : EntityMapping) (dmx_value : Z)
  (dmx_data : gmap Z Z) : Emitted :=
  let eid := entity_id mapping in
  match entity_type mapping with
  | SWITCH =>
      let should_be_on := dmx_to_ha_switch dmx_value in
      Emit (mkCommand eid (if should_be_on then turn_on else turn_off)
              None None None None None)
  | DIMMER =>
      let b := dmx_to_ha_brightness dmx_value in
      if 0 <? b then Emit (mkCommand eid turn_on (Some b) None None None None)
      else Emit (off_command eid)
  | COLOR_TEMP =>
      let b := dmx_to_ha_brightness dmx_value in
      if 0 <? b then
        match kelvin_of dmx_value with
        | Some k => Emit (mkCommand eid turn_on (Some b) None None None (Some k))
        | None => Raise
        end
      else Emit (off_command eid)
  | RGB | RGBW | RGBWW =>
      let b := dmx_to_ha_brightness dmx_value in
      let chs := rgb_channels mapping in
      if 3 <=? Py.len chs then
        let r := get0 dmx_data (Py.item 0 chs 0) in
        let g := get0 dmx_data (Py.item 0 chs 1) in
        let bl := get0 dmx_data (Py.item 0 chs 2) in
        if 0 <? b then
          if bool_decide (entity_type mapping = RGBW) && (4 <=? Py.len chs) then
            let w := get0 dmx_data (Py.item 0 chs 3) in
            Emit (mkCommand eid turn_on (Some b) None (Some [r; g; bl; w])
                    None None)
          else if bool_decide (entity_type mapping = RGBWW)
                  && (5 <=? Py.len chs) then
            let cw := get0 dmx_data (Py.item 0 chs 3) in
            let ww := get0 dmx_data (Py.item 0 chs 4) in
            Emit (mkCommand eid turn_on (Some b) None None
                    (Some [r; g; bl; cw; ww]) None)
          else
            Emit (mkCommand eid turn_on (Some b) (Some [r; g; bl]) None
                    None None)
        else Emit (off_command eid)
      else Nothing
  | UNKNOWN => Nothing
  end.

(** One iteration of the loop of [get_entity_commands] on the pair of
    [commands] and [processed_entities]; [None] once an exception has been
    raised. *)
Definition command_step (dmx_data : gmap Z Z)
  (acc : option (list Command * gset string)) (mapping : EntityMapping)
  : option (list Command * gset string) :=
  match acc with
  | None => None
  | Some (commands, processed_entities) =>
      if bool_decide (entity_id mapping ∈ processed_entities) then acc
      else
        match dmx_data !! dmx_channel mapping with
        | None => acc
        | Some dmx_value =>
            match command_for mapping dmx_value dmx_data with
            | Raise => None
            | Nothing =>
                Some (commands, {[entity_id mapping]} ∪ processed_entities)
            | Emit c =>
                Some (commands ++ [c],
                      {[entity_id mapping]} ∪ processed_entities)
            end
        end
  end.

(** [get_entity_commands(dmx_data)]; [None] when it raises. *)
Definition get_entity_commands (self : EntityMapper) (dmx_data : gmap Z Z)
  : option (list Command) :=
  fst <$> foldl (command_step dmx_data) (Some ([], ∅))
            (Py.dict_values (mappings self)).

(** The last channel of the range [primary, primary + auxiliary_count] of a
    mapping. *)
Definition last_channel (m : EntityMapping) : Z :=
  dmx_channel m + Py.len (rgb_channels m).

Definition disjoint_ranges (m1 m2 : EntityMapping) : Prop :=
  last_channel m1 < dmx_channel m2 \/ last_channel m2 < dmx_channel m1.

(** The invariant of the loop of [auto_assign_channels], for a pass that
    started from the table [ms0]: the devices added so far lie below the
    cursor, and their ranges are pairwise disjoint. *)
Definition assigned_below (ms0 : list (string * EntityMapping))
  (acc : list (string * EntityMapping) * Z) : Prop :=
  (forall k m,
     Py.dict_get k ms0 = None -> Py.dict_get k acc.1 = Some m ->
     last_channel m < acc.2) /\
  (forall k1 k2 m1 m2,
     k1 <> k2 ->
     Py.dict_get k1 ms0 = None -> Py.dict_get k2 ms0 = None ->
     Py.dict_get k1 acc.1 = Some m1 -> Py.dict_get k2 acc.1 = Some m2 ->
     disjoint_ranges m1 m2).

Definition rgbw_light : EntityState :=
  mkState "light.spot" (Some "Spot"%string) ["rgbw"%string] false.
Definition wall_switch : EntityState :=
  mkState "switch.wall" None [] false.

(** The number of auxiliary channels a device type requires (the data
    model of the specification: 3 for RGB, 4 for RGBW, 5 for RGBWW, none
    otherwise). *)
Definition aux_required (t : EntityType) : Z :=
  match t with
  | RGB => 3
  | RGBW => 4
  | RGBWW => 5
  | _ => 0
  end.

(** The colour temperature the specification words give: the integer
    nearest to [2000 + (v / 255) * 4500], computed on exact rationals. No
    value [v] gives a tie. *)
Definition kelvin_rounded (v : Z) : Z :=
  Qfloor (2000 + (inject_Z v / 255) * 4500 + (1 # 2))%Q.

(** The exact value [2000 + (v / 255) * 4500] truncated to an integer. *)
Definition kelvin_truncated (v : Z) : Z :=
  Qfloor (2000 + (inject_Z v / 255) * 4500)%Q.

(** Every value of a frame is an unsigned 8-bit value. *)
Definition byte_frame (dmx_data : gmap Z Z) : Prop :=
  map_Forall (fun _ v => 0 <= v <= 255) dmx_data.

(** Example mappings and frames: an RGBW mapping with three auxiliary
    channels only, a colour-temperature mapping, and frames that hold a few
    channels. *)
Definition short_rgbw : EntityMapping :=
  mkMapping "light.bar" RGBW 10 "Bar" [11; 12; 13].
Definition bare_rgb : EntityMapping :=
  mkMapping "light.desk" RGB 10 "" [].
Definition warm_lamp : EntityMapping :=
  mkMapping "light.lamp" COLOR_TEMP 20 "Lamp" [].
Definition scene : gmap Z Z :=
  list_to_map [(10, 128); (11, 255); (12, 0); (13, 64); (20, 255)].
Definition dark_scene : gmap Z Z :=
  list_to_map [(10, 0); (11, 255); (12, 0); (13, 64); (20, 0)].
Definition dim_scene : gmap Z Z := list_to_map [(20, 1)].

(** [remove_mapping(entity_id)] *)
Definition remove_mapping (self : EntityMapper) (eid : string) : EntityMapper :=
  if Py.dict_mem eid (mappings self)
  then with_mappings (Py.dict_del eid (mappings self))
  else self.

(** [get_all_mappings()] *)
Definition get_all_mappings (self : EntityMapper) : list EntityMapping :=
  Py.dict_values (mappings self).

(** [EntityType.value] *)
Definition type_value (t : EntityType) : string :=
  match t with
  | SWITCH => "switch"
  | DIMMER => "dimmer"
  | RGB => "rgb"
  | RGBW => "rgbw"
  | RGBWW => "rgbww"
  | COLOR_TEMP => "color_temp"
  | UNKNOWN => "unknown"
  end.

(** [EntityType(value)]; [None] is the [ValueError] for a string that is
    the value of no member. *)
Definition type_of_value (s : string) : option EntityType :=
  if String.eqb s "switch" then Some SWITCH
  else if String.eqb s "dimmer" then Some DIMMER
  else if String.eqb s "rgb" then Some RGB
  else if String.eqb s "rgbw" then Some RGBW
  else if String.eqb s "rgbww" then Some RGBWW
  else if String.eqb s "color_temp" then Some COLOR_TEMP
  else if String.eqb s "unknown" then Some UNKNOWN
  else None.

(** One value of the JSON file: the dictionary [to_dict] builds, with the
    five keys it writes. *)
Record StoredMapping := mkStored {
  s_entity_id : string;
  s_entity_type : string;
  s_dmx_channel : Z;
  s_name : string;
  s_rgb_channels : list Z
}.

Definition to_dict (m : EntityMapping) : StoredMapping :=
  {| s_entity_id := entity_id m;
     s_entity_type := type_value (entity_type m);
     s_dmx_channel := dmx_channel m;
     s_name := name m;
     s_rgb_channels := rgb_channels m |}.

(** [EntityMapping.from_dict(data)]; [None] when it raises. *)
Definition from_dict (data : StoredMapping) : option EntityMapping :=
  match type_of_value (s_entity_type data) with
  | Some t =>
      Some (mkMapping (s_entity_id data) t (s_dmx_channel data) (s_name data)
              (s_rgb_channels data))
  | None => None
  end.

(** The data [save_mappings] writes to the file. The JSON encoding of
    strings, ints and lists of ints and its decoding are taken to be inverse
    to each other, so the file is modelled by the data it holds. *)
Definition saved_data (self : EntityMapper) : list (string * StoredMapping) :=
  (fun km => (km.1, to_dict km.2)) <$> mappings self.

(** The dictionary comprehension of [load_mappings]; [None] when a
    [from_dict] raises. *)
Fixpoint load_entries (data : list (string * StoredMapping))
  : option (list (string * EntityMapping)) :=
  match data with
  | [] => Some []
  | (k, d) :: rest =>
      match from_dict d with
      | None => None
      | Some m =>
          match load_entries rest with
          | None => None
          | Some ms => Some ((k, m) :: ms)
          end
      end
  end.

(** [load_mappings()]: [file] is [None] when the file does not exist, and
    the data of the file otherwise. Every exception is caught and leaves
    the mapper as it is. *)
Definition load_mappings (self : EntityMapper)
  (file : option (list (string * StoredMapping))) : EntityMapper :=
  match file with
  | None => self
  | Some data =>
      match load_entries data with
      | Some ms => with_mappings ms
      | None => self
      end
  end.

(** [__init__]: an empty table, then [load_mappings]. *)
Definition new_mapper (file : option (list (string * StoredMapping)))
  : EntityMapper :=
  load_mappings {| mappings := []; channel_to_entity := ∅ |} file.

(** A mapping uses a channel as its primary or as an auxiliary channel. *)
Definition uses_channel (m : EntityMapping) (channel : Z) : Prop :=
  channel = dmx_channel m \/ channel ∈ rgb_channels m.

(** A table as the operations of the mapper build it: every key once, and
    every mapping stored under its own [entity_id]. *)
Definition keyed (ms : list (string * EntityMapping)) : Prop :=
  NoDup (Py.dict_keys ms) /\ Forall (fun km => entity_id km.2 = km.1) ms.

(** The commands of a pass when no device is skipped as processed: the
    command of every mapping whose primary channel is in the frame, in
    table order. *)
Fixpoint emit_all (dmx_data : gmap Z Z) (ms : list EntityMapping)
  : option (list Command) :=
  match ms with
  | [] => Some []
  | m :: rest =>
      match dmx_data !! dmx_channel m with
      | None => emit_all dmx_data rest
      | Some v =>
          match command_for m v dmx_data with
          | Raise => None
          | Nothing => emit_all dmx_data rest
          | Emit c => (fun cs => c :: cs) <$> emit_all dmx_data rest
          end
      end
  end.

End Mapper.

(** ** bridge_controller.py: the dispatch pass *)

Module Bridge.

Import Mapper.

(** [a < b] on clock readings. *)
Definition Qlt_bool (a b : Q) : bool := negb (Qle_bool b a).

(** [min_command_interval = 0.05], in seconds. *)
Definition min_command_interval : Q := 0.05%Q.

(** How [await self.ha_client.turn_on(...)] or [turn_off(...)] ends: it
    returns (the request went out and was answered, whatever the answer), or
    it raises. *)
Inductive Outcome := Returned | Raised.

(** The controller state the pass works on. [sent] logs the client calls
    that returned, with the clock reading of their pass, oldest first. *)
Record BridgeController := mkBridge {
  last_command_time : gmap string Q;
  sent : list (Q * Command)
}.

Definition init : BridgeController :=
  {| last_command_time := ∅; sent := [] |}.

(** [self.last_command_time.get(entity_id, 0)] *)
Definition last_time_of (self : BridgeController) (eid : string) : Q :=
  default 0%Q (last_command_time self !! eid).

(** The throttle test of the loop body. *)
Definition throttled (self : BridgeController) (current_time : Q)
  (eid : string) : bool :=
  Qlt_bool (current_time - last_time_of self eid) min_command_interval.

(** One iteration of the loop over [commands]. *)
Definition dispatch (ha : Command -> Outcome) (current_time : Q)
  (self : BridgeController) (command : Command) : BridgeController :=
  let eid := cmd_entity_id command in
  if throttled self current_time eid then self
  else
    match ha command with
    | Returned =>
        {| last_command_time := <[eid := current_time]> (last_command_time self);
           sent := sent self ++ [(current_time, command)] |}
    | Raised => self
    end.

(** The loop over [commands], with [current_time] read once before it. *)
Definition dispatch_all (ha : Command -> Outcome) (current_time : Q)
  (self : BridgeController) (commands : list Command) : BridgeController :=
  foldl (dispatch ha current_time) self commands.

(** [_process_dmx_data(dmx_data)]: [connected] is
    [self.ha_client and self.ha_client.connected], [current_time] the value
    [time.time()] returns in this pass, [ha] how the client answers in this
    pass. An exception of [get_entity_commands] ends the pass. *)
Definition _process_dmx_data (ha : Command -> Outcome) (connected : bool)
  (mapper : EntityMapper) (current_time : Q) (self : BridgeController)
  (dmx_data : gmap Z Z) : BridgeController :=
  if negb connected then self
  else
    match get_entity_commands mapper dmx_data with
    | None => self
    | Some commands => dispatch_all ha current_time self commands
    end.

(** The clock reading logged with the last call for a device, if any. *)
Fixpoint last_sent (log : list (Q * Command)) (eid : string) : option Q :=
  match log with
  | [] => None
  | (t, c) :: rest =>
      match last_sent rest eid with
      | Some t' => Some t'
      | None => if String.eqb (cmd_entity_id c) eid then Some t else None
      end
  end.

(** The recorded times are those of the log: for every device,
    [last_command_time] holds the clock reading of the last call that
    returned. It holds of [init] and every dispatch keeps it. *)
Definition consistent (self : BridgeController) : Prop :=
  forall eid, last_command_time self !! eid = last_sent (sent self) eid.

(** Example commands for one switch. *)
Definition switch_on : Command :=
  mkCommand "switch.wall" turn_on None None None None None.







End Bridge.

(** ** ha_client.py: requests and responses *)

Module Client.

Import Mapper.

(** A message of the platform, as far as the client reads it: its ['id']
    if it has one, its ['type'], and whether ['success'] is there and
    true. *)
Record Message := mkMessage {
  msg_id : option Z;
  msg_type : string;
  msg_success : bool
}.

(** The requests the client writes: the authentication message, and the
    commands [send_command] is called with. *)
Inductive Request :=
  | auth
  | get_states
  | registry_get (eid : string)
  | call_service_request (domain service : string) (data : Command).

(** The client. [outbox] logs what was written to the socket, each command
    with the id it was given, oldest first; [inbox] is what the platform
    sends from now on, in order, up to the point where the connection is
    closed (reading past it raises). A connection that stays open and
    silent, on which a read never returns, is not modelled. *)
Record HAClient := mkClient {
  message_id : Z;
  connected : bool;
  outbox : list (option Z * Request);
  inbox : list Message
}.

(** [__init__], talking to a platform that will send [messages]. *)
Definition new_client (messages : list Message) : HAClient :=
  {| message_id := 1; connected := false; outbox := []; inbox := messages |}.

(** [disconnect()] *)
Definition disconnect (self : HAClient) : HAClient :=
  {| message_id := message_id self; connected := false;
     outbox := outbox self; inbox := inbox self |}.

(** [connect()]: the client and whether the call returned ([false]: it
    raised, after [disconnect]). *)
Definition connect (self : HAClient) : HAClient * bool :=
  match inbox self with
  | [] => (disconnect self, false)
  | first :: rest =>
      if negb (String.eqb (msg_type first) "auth_required") then
        (disconnect {| message_id := message_id self;
                       connected := connected self;
                       outbox := outbox self; inbox := rest |}, false)
      else
        let written := outbox self ++ [(None, auth)] in
        match rest with
        | [] =>
            (disconnect {| message_id := message_id self;
                           connected := connected self;
                           outbox := written; inbox := [] |}, false)
        | second :: rest' =>
            if negb (String.eqb (msg_type second) "auth_ok") then
              (disconnect {| message_id := message_id self;
                             connected := connected self;
                             outbox := written; inbox := rest' |}, false)
            else
              ({| message_id := message_id self; connected := true;
                  outbox := written; inbox := rest' |}, true)
        end
  end.

(** The loop of [send_command] that reads messages until one has the id of
    the command: the response, if the connection is not closed before, and
    the messages that are left. *)
Fixpoint read_response (id : Z) (messages : list Message)
  : option Message * list Message :=
  match messages with
  | [] => (None, [])
  | msg :: rest =>
      if bool_decide (msg_id msg = Some id) then (Some msg, rest)
      else read_response id rest
  end.

(** [send_command(command)]: the client and the response; [None] when the
    call raises. *)
Definition send_command (self : HAClient) (command : Request)
  : HAClient * option Message :=
  if negb (connected self) then (self, None)
  else
    let id := message_id self in
    let '(response, rest) := read_response id (inbox self) in
    ({| message_id := id + 1; connected := connected self;
        outbox := outbox self ++ [(Some id, command)]; inbox := rest |},
     response).

(** [call_service(domain, service, entity_id, **kwargs)]: a response that
    reports a failure is logged and the call returns. *)
Definition call_service (self : HAClient) (domain service : string)
  (data : Command) : HAClient * Bridge.Outcome :=
  let '(self', response) :=
    send_command self (call_service_request domain service data) in
  (self', match response with
          | Some _ => Bridge.Returned
          | None => Bridge.Raised
          end).

(** [turn_on(entity_id, **kwargs)], with the keyword arguments the
    controller takes from the command. *)
Definition turn_on (self : HAClient) (command : Command)
  : HAClient * Bridge.Outcome :=
  call_service self (Py.split_dot_head (cmd_entity_id command)) "turn_on" command.

(** [turn_off(entity_id)] *)
Definition turn_off (self : HAClient) (command : Command)
  : HAClient * Bridge.Outcome :=
  call_service self (Py.split_dot_head (cmd_entity_id command)) "turn_off"
    (off_command (cmd_entity_id command)).

(** Commands sent one after the other, whatever their outcome. *)
Definition send_all (self : HAClient) (commands : list Request) : HAClient :=
  foldl (fun client command => (send_command client command).1) self commands.

End Client.

(** * Properties *)

(** ** Python helpers *)

Section PyFacts.

Import Py.

Lemma byte_val_range b : 0 <= byte_val b < 256.
Proof.
  unfold byte_val. pose proof (Byte.to_N_bounded b) as H. lia.
Qed.

Lemma clamp_id n i : 0 <= i <= n -> clamp n i = i.
Proof. unfold clamp. destruct (i <? 0) eqn:E; lia. Qed.

Lemma slice_in_range {A} (l : list A) (i j : Z) :
  0 <= i <= j -> j <= len l ->
  slice l i j = take (Z.to_nat (j - i)) (drop (Z.to_nat i) l).
Proof.
  intros Hi Hj. unfold slice. rewrite !clamp_id by lia. reflexivity.
Qed.

Lemma slice_length {A} (l : list A) (i j : Z) :
  0 <= i <= j -> j <= len l -> len (slice l i j) = j - i.
Proof.
  intros Hi Hj. rewrite slice_in_range by assumption.
  unfold len in *. rewrite length_take, length_drop. lia.
Qed.

End PyFacts.

(** ** The receiver *)

Section Receiver.

Import ArtNet.

Lemma pad512_length l : length (pad512 l) = Nat.max 512 (length l).
Proof. unfold pad512. rewrite length_app, length_replicate. lia. Qed.

Lemma unpack_be16_nonneg data i : 0 <= unpack_be16 data i.
Proof.
  unfold unpack_be16.
  pose proof (byte_val_range (Py.item x00 data i)) as Hh.
  pose proof (byte_val_range (Py.item x00 data (i + 1))) as Hl.
  apply Z.lor_nonneg. split; [apply Z.shiftl_nonneg|]; lia.
Qed.

(** What an accepted datagram decodes to: the declared payload, in order,
    with zeros after it up to 512 slots. *)
Lemma decode_accepted u data frame :
  decode u data = Some frame ->
  let n := unpack_be16 data 16 in
  18 + n <= Py.len data /\
  frame = (Py.byte_val <$> Py.slice data 18 (18 + n))
            ++ replicate (512 - Z.to_nat n) 0 /\
  length frame = Nat.max 512 (Z.to_nat n).
Proof.
  intros H n. unfold decode in H.
  destruct (Py.len data <? 18) eqn:E1; [discriminate|].
  destruct (negb (bool_decide (Py.slice_to data 8 = ARTNET_HEADER)));
    [discriminate|].
  destruct (negb (unpack_le16 data 8 =? ARTNET_DMX)); [discriminate|].
  destruct (negb (_ =? u)); [discriminate|].
  fold n in H.
  destruct (Py.len data <? 18 + n) eqn:E2; [discriminate|].
  apply Z.ltb_ge in E2. injection H as <-.
  pose proof (unpack_be16_nonneg data 16) as Hn. fold n in Hn.
  assert (Hlen : length (Py.byte_val <$> Py.slice data 18 (18 + n)) = Z.to_nat n).
  { rewrite length_fmap.
    pose proof (slice_length data 18 (18 + n)) as Hs. unfold Py.len in *. lia. }
  split; [exact E2|]. split.
  - unfold pad512. now rewrite Hlen.
  - rewrite pad512_length, Hlen. reflexivity.
Qed.

(** A payload of at most 512 bytes gives a frame of exactly 512 slots. *)
Lemma decode_512_when_payload_fits u data frame :
  decode u data = Some frame ->
  unpack_be16 data 16 <= 512 ->
  length frame = 512%nat.
Proof.
  intros H Hn. apply decode_accepted in H as (_ & _ & ->).
  pose proof (unpack_be16_nonneg data 16). lia.
Qed.

(** The stored frame never has fewer than 512 slots. *)
Lemma deliver_length r frame :
  (512 <= length (dmx_data r))%nat -> (512 <= length frame)%nat ->
  (512 <= length (dmx_data (deliver r frame)))%nat.
Proof. unfold deliver. case_bool_decide; simpl; auto. Qed.

Lemma parse_length r data :
  (512 <= length (dmx_data r))%nat ->
  (512 <= length (dmx_data (_parse_artnet_packet r data)))%nat.
Proof.
  intros H. unfold _parse_artnet_packet.
  destruct (decode (universe r) data) as [f|] eqn:E; [|exact H].
  apply deliver_length; [exact H|].
  apply decode_accepted in E as (_ & _ & ->). lia.
Qed.

Lemma receive_all_length r datagrams :
  (512 <= length (dmx_data r))%nat ->
  (512 <= length (dmx_data (receive_all r datagrams)))%nat.
Proof.
  revert r. induction datagrams as [|d ds IH]; intros r H; simpl; [exact H|].
  apply IH. now apply parse_length.
Qed.

(** C1, evaluated on the code. A datagram for universe 0 with valid
    signature and opcode, declared payload length 513 and 513 payload bytes
    (531 bytes in all, within the 1024 the socket reads) is accepted, and
    its frame has 513 slots: the payload is not truncated to 512. *)
Theorem decode_keeps_oversized_payload :
  Py.len oversized_packet = 531 /\
  unpack_be16 oversized_packet 16 = 513 /\
  decode 0 oversized_packet = Some (replicate 513 1) /\
  length (dmx_data (_parse_artnet_packet (init 0) oversized_packet)) = 513%nat.
Proof. vm_compute. repeat split; reflexivity. Qed.

Lemma deliver_step r f :
  callback r = true ->
  callback (deliver r f) = true /\
  dmx_data (deliver r f) = f /\
  fired (deliver r f)
    = (fired r + (if bool_decide (f <> dmx_data r) then 1 else 0))%nat.
Proof.
  intros Hcb. unfold deliver, fired. case_bool_decide as Hne; simpl.
  - rewrite Hcb, length_app. simpl. auto.
  - repeat split; auto; lia.
Qed.

Lemma deliver_all_fired frames : forall r,
  callback r = true ->
  fired (deliver_all r frames) = (fired r + changes (dmx_data r) frames)%nat.
Proof.
  induction frames as [|f rest IH]; intros r Hcb; simpl; [lia|].
  destruct (deliver_step r f Hcb) as (Hcb' & Hd & Hf).
  unfold deliver_all in IH. rewrite IH by exact Hcb'.
  rewrite Hd, Hf. lia.
Qed.

(** C3 as stated fails on a receiver that has just been created: its stored
    frame is 512 zeros, so a first datagram that decodes to 512 zeros does
    not fire the callback. Two distinct consecutive frames then fire it
    once, and the same frame twice in a row fires it not at all. *)
Lemma zero_first_frame_is_silent :
  decode 0 blackout_packet = Some (replicate 512 0) /\
  decode 0 one_packet = Some (1 :: replicate 511 0) /\
  replicate 512 0 <> 1 :: replicate 511 0 /\
  fired (receive_all (set_callback (init 0)) [blackout_packet; one_packet])
    = 1%nat /\
  fired (receive_all (set_callback (init 0)) [blackout_packet; blackout_packet])
    = 0%nat.
Proof.
  split; [vm_compute; reflexivity|].
  split; [vm_compute; reflexivity|].
  split; [discriminate|].
  split; vm_compute; reflexivity.
Qed.

(** C3, amended. With a callback registered, the callback fires exactly
    once for each delivered frame that differs from the frame stored when it
    arrives (the frame delivered before it, or the receiver's stored frame
    for the first one) and never for a frame equal to it. So two consecutive
    frames f1 <> f2 fire it exactly twice, and f1 delivered twice in a row
    fires it exactly once, whenever f1 differs from the stored frame. *)
Theorem callback_fires_once_per_change r frames f1 f2 :
  callback r = true ->
  f1 <> dmx_data r ->
  fired (deliver_all r frames) = (fired r + changes (dmx_data r) frames)%nat /\
  (f1 <> f2 -> fired (deliver_all r [f1; f2]) = (fired r + 2)%nat) /\
  fired (deliver_all r [f1; f1]) = (fired r + 1)%nat.
Proof.
  intros Hcb H1. split; [now apply deliver_all_fired|].
  split; [intros H12|]; rewrite deliver_all_fired by exact Hcb; simpl.
  - rewrite bool_decide_true by exact H1.
    rewrite bool_decide_true by (intros E; apply H12; now rewrite E).
    lia.
  - rewrite bool_decide_true by exact H1.
    rewrite bool_decide_false by (intros E; now apply E).
    lia.
Qed.

Lemma callback_fires_once_per_change_witness :
  fired (deliver_all (set_callback (init 0)) [[1]; [2]]) = 2%nat /\
  fired (deliver_all (set_callback (init 0)) [[1]; [1]]) = 1%nat.
Proof.
  assert (Hcb : callback (set_callback (init 0)) = true) by reflexivity.
  assert (H1 : [1] <> dmx_data (set_callback (init 0))) by discriminate.
  destruct (callback_fires_once_per_change
              (set_callback (init 0)) [] [1] [2] Hcb H1) as (_ & H2 & H3).
  split; [apply H2; discriminate | exact H3].
Defined.

(** C10. For a start channel in 1..512 and a count that is not negative,
    [get_channels] returns the stored values of the channels [start] to
    [min (start + count) 512], both included: [min (count + 1) (513 - start)]
    values. *)
Theorem get_channels_inclusive_range r start count :
  (512 <= length (dmx_data r))%nat ->
  1 <= start <= 512 ->
  0 <= count ->
  get_channels r start count
    = get_channel r <$> seqZ start (Z.min (start + count) 512 - start + 1) /\
  Py.len (get_channels r start count) = Z.min (count + 1) (513 - start).
Proof.
  intros Hlen Hs Hc.
  assert (E : get_channels r start count
              = get_channel r <$> seqZ start (Z.min (start + count) 512 - start + 1)).
  { unfold get_channels.
    replace ((start <? 1) || (512 <? start)) with false
      by (symmetry; apply orb_false_iff; split; lia).
    set (e := Z.min (start + count) 512).
    rewrite slice_in_range by (unfold Py.len; lia).
    apply list_eq. intros i.
    rewrite list_lookup_fmap.
    destruct (decide (Z.of_nat i < e - start + 1)) as [Hi|Hi].
    - rewrite lookup_take_lt by lia. rewrite lookup_drop.
      rewrite lookup_seqZ_lt by lia. simpl.
      unfold get_channel.
      replace ((1 <=? start + Z.of_nat i) && (start + Z.of_nat i <=? 512))
        with true by (symmetry; apply andb_true_iff; split; lia).
      unfold Py.item.
      replace (Z.to_nat (start + Z.of_nat i - 1))
        with (Z.to_nat (start - 1) + i)%nat by lia.
      destruct (nth_lookup_or_length (dmx_data r) (Z.to_nat (start - 1) + i) 0)
        as [->|Hge]; [reflexivity | lia].
    - rewrite lookup_take_ge by lia.
      rewrite lookup_seqZ_ge by lia. reflexivity. }
  split; [exact E|].
  rewrite E. unfold Py.len. rewrite length_fmap, length_seqZ. lia.
Qed.

Lemma get_channels_inclusive_range_witness :
  get_channels (init 0) 510 5 = [0; 0; 0] /\
  Py.len (get_channels (init 0) 1 3) = 4.
Proof.
  assert (Hlen : (512 <= length (dmx_data (init 0)))%nat)
    by (vm_compute; reflexivity).
  split.
  - rewrite (proj1 (get_channels_inclusive_range (init 0) 510 5 Hlen
                      ltac:(lia) ltac:(lia))).
    reflexivity.
  - rewrite (proj2 (get_channels_inclusive_range (init 0) 1 3 Hlen
                      ltac:(lia) ltac:(lia))).
    reflexivity.
Defined.

End Receiver.

(** ** Dictionaries in insertion order *)

Section DictFacts.

Import Py.

Context {V : Type}.

Implicit Types (d : list (string * V)) (k : string) (v : V).

Lemma dict_get_set_eq k v d : dict_get k (dict_set k v d) = Some v.
Proof.
  induction d as [|[k' v'] rest IH]; simpl.
  - now rewrite String.eqb_refl.
  - destruct (String.eqb k k') eqn:E; simpl; rewrite E; auto.
Qed.

Lemma dict_get_set_ne k k' v d :
  k <> k' -> dict_get k' (dict_set k v d) = dict_get k' d.
Proof.
  intros Hne. induction d as [|[k0 v0] rest IH]; simpl.
  - apply not_eq_sym, String.eqb_neq in Hne. now rewrite Hne.
  - destruct (String.eqb k k0) eqn:E; simpl.
    + apply String.eqb_eq in E. subst k0.
      apply not_eq_sym, String.eqb_neq in Hne. now rewrite Hne.
    + now rewrite IH.
Qed.

Lemma dict_mem_true k d : dict_mem k d = true <-> is_Some (dict_get k d).
Proof.
  unfold dict_mem. destruct (dict_get k d); split; intros H; eauto.
  - discriminate.
  - now destruct H.
Qed.

Lemma dict_mem_false k d : dict_mem k d = false <-> dict_get k d = None.
Proof. unfold dict_mem. destruct (dict_get k d); split; congruence. Qed.

End DictFacts.

(** ** Automatic channel assignment *)

Section AutoAssign.

Import Py Mapper.

Implicit Types (ms : list (string * EntityMapping)) (e : EntityState).

#[local] Arguments assign_one : simpl never.

Lemma allocate_shape eid ty nm c :
  let (m, c') := allocate eid ty nm c in
  entity_id m = eid /\ entity_type m = ty /\ name m = nm /\
  dmx_channel m = c /\ c' = c + 1 + len (rgb_channels m).
Proof. destruct ty; simpl; repeat split; unfold len; simpl; lia. Qed.

Lemma assign_one_present ms c e :
  dict_mem (st_entity_id e) ms = true -> assign_one (ms, c) e = (ms, c).
Proof. unfold assign_one. now intros ->. Qed.

Lemma assign_one_new ms c e :
  dict_mem (st_entity_id e) ms = false ->
  assign_one (ms, c) e
  = let a := allocate (st_entity_id e) (detect_entity_type e)
               (default (st_entity_id e) (st_friendly_name e)) c in
    (dict_set (st_entity_id e) a.1 ms, a.2).
Proof.
  unfold assign_one. intros ->. now destruct (allocate _ _ _ _).
Qed.

(** An entry of the table survives an iteration unchanged. *)
Lemma assign_one_preserves ms c e k m :
  dict_get k ms = Some m -> dict_get k (assign_one (ms, c) e).1 = Some m.
Proof.
  intros Hk. destruct (dict_mem (st_entity_id e) ms) eqn:E.
  - now rewrite assign_one_present.
  - rewrite assign_one_new by exact E. simpl.
    rewrite dict_get_set_ne; [exact Hk|].
    intros <-. apply dict_mem_false in E. congruence.
Qed.

Lemma assign_loop_preserves entities : forall ms c k m,
  dict_get k ms = Some m ->
  dict_get k (assign_loop ms c entities).1 = Some m.
Proof.
  induction entities as [|e rest IH]; intros ms c k m Hk; simpl; [exact Hk|].
  unfold assign_loop in *. simpl.
  destruct (assign_one (ms, c) e) as [ms' c'] eqn:E.
  apply IH. change ms' with (ms', c').1. rewrite <- E.
  now apply assign_one_preserves.
Qed.



(** After an iteration the entity is in the table. *)
Lemma assign_one_mem ms c e :
  dict_mem (st_entity_id e) (assign_one (ms, c) e).1 = true.
Proof.
  destruct (dict_mem (st_entity_id e) ms) eqn:E.
  - now rewrite assign_one_present.
  - rewrite assign_one_new by exact E. simpl.
    apply dict_mem_true. rewrite dict_get_set_eq. eauto.
Qed.

Lemma assign_loop_mem entities : forall ms c e,
  e ∈ entities ->
  dict_mem (st_entity_id e) (assign_loop ms c entities).1 = true.
Proof.
  induction entities as [|x rest IH]; intros ms c e He.
  - inversion He.
  - unfold assign_loop in *. simpl.
    destruct (assign_one (ms, c) x) as [ms' c'] eqn:E.
    apply elem_of_cons in He as [->|He].
    + pose proof (assign_one_mem ms c x) as Hm. rewrite E in Hm. simpl in Hm.
      apply dict_mem_true in Hm as [m Hm]. apply dict_mem_true.
      exists m. now apply (assign_loop_preserves rest ms' c').
    + now apply IH.
Qed.

(** A pass over entities that are all mapped changes nothing. *)
Lemma assign_loop_all_present entities : forall ms c,
  (forall e, e ∈ entities -> dict_mem (st_entity_id e) ms = true) ->
  assign_loop ms c entities = (ms, c).
Proof.
  induction entities as [|x rest IH]; intros ms c H; [reflexivity|].
  unfold assign_loop in *. simpl.
  rewrite assign_one_present by (apply H; left).
  apply IH. intros e He. apply H. now right.
Qed.

(** C8. A second [auto_assign_channels] with the same entity list, from any
    start channel, leaves the mapper as the first one left it, and a pass
    never changes the type, the primary channel or the auxiliary channels of
    a device that was in the table before it. *)
Theorem auto_assign_idempotent self entities start start' :
  auto_assign_channels (auto_assign_channels self entities start)
    entities start'
  = auto_assign_channels self entities start /\
  (forall k m,
     dict_get k (mappings self) = Some m ->
     dict_get k (mappings (auto_assign_channels self entities start)) = Some m).
Proof.
  split.
  - unfold auto_assign_channels at 1. simpl.
    rewrite assign_loop_all_present; [reflexivity|].
    intros e He. now apply assign_loop_mem.
  - intros k m Hk. simpl. now apply assign_loop_preserves.
Qed.

Lemma auto_assign_idempotent_witness :
  dict_get "light.spot"
    (mappings (auto_assign_channels
                 (auto_assign_channels (with_mappings []) [rgbw_light] 1)
                 [wall_switch; rgbw_light] 40))
  = Some (mkMapping "light.spot" RGBW 1 "Spot" [2; 3; 4; 5]).
Proof.
  apply (proj2 (auto_assign_idempotent
                  (auto_assign_channels (with_mappings []) [rgbw_light] 1)
                  [wall_switch; rgbw_light] 40 40)).
  vm_compute. reflexivity.
Defined.

Lemma assign_one_below ms0 acc e :
  assigned_below ms0 acc -> assigned_below ms0 (assign_one acc e).
Proof.
  destruct acc as [ms c]. intros [Hlt Hdis].
  destruct (dict_mem (st_entity_id e) ms) eqn:E.
  { rewrite assign_one_present by exact E. now split. }
  rewrite assign_one_new by exact E. simpl.
  pose proof (allocate_shape (st_entity_id e) (detect_entity_type e)
                (default (st_entity_id e) (st_friendly_name e)) c) as Hsh.
  destruct (allocate _ _ _ _) as [m c']. simpl in *.
  destruct Hsh as (_ & _ & _ & Hch & Hc').
  assert (Hlast : last_channel m < c') by (unfold last_channel; lia).
  assert (Hmono : c <= c') by (unfold len in Hc'; lia).
  split; simpl.
  - intros k m0 H0 Hk.
    destruct (decide (st_entity_id e = k)) as [<-|Hne].
    + rewrite dict_get_set_eq in Hk. now injection Hk as <-.
    + rewrite dict_get_set_ne in Hk by exact Hne.
      specialize (Hlt k m0 H0 Hk). simpl in Hlt. lia.
  - intros k1 k2 m1 m2 Hne H01 H02 Hk1 Hk2. unfold disjoint_ranges.
    destruct (decide (st_entity_id e = k1)) as [<-|Hn1];
      destruct (decide (st_entity_id e = k2)) as [<-|Hn2].
    + contradiction.
    + rewrite dict_get_set_eq in Hk1. injection Hk1 as <-.
      rewrite dict_get_set_ne in Hk2 by exact Hn2.
      specialize (Hlt k2 m2 H02 Hk2). simpl in Hlt. right. lia.
    + rewrite dict_get_set_eq in Hk2. injection Hk2 as <-.
      rewrite dict_get_set_ne in Hk1 by exact Hn1.
      specialize (Hlt k1 m1 H01 Hk1). simpl in Hlt. left. lia.
    + rewrite dict_get_set_ne in Hk1 by exact Hn1.
      rewrite dict_get_set_ne in Hk2 by exact Hn2.
      exact (Hdis k1 k2 m1 m2 Hne H01 H02 Hk1 Hk2).
Qed.

Lemma assign_loop_below ms0 entities : forall acc,
  assigned_below ms0 acc -> assigned_below ms0 (foldl assign_one acc entities).
Proof.
  induction entities as [|e rest IH]; intros acc H; simpl; [exact H|].
  apply IH. now apply assign_one_below.
Qed.

Lemma assigned_below_start ms0 start : assigned_below ms0 (ms0, start).
Proof. split; simpl; intros; congruence. Qed.

(** C9. Two distinct devices that a pass of [auto_assign_channels] adds to
    the table get disjoint channel ranges [primary, primary +
    auxiliary_count]. Each added device takes the cursor as its primary
    channel, and the cursor then moves, upwards, by exactly the number of
    channels of the device (one plus its number of auxiliary channels). *)
Theorem auto_assign_ranges_disjoint self entities start :
  (forall k1 k2 m1 m2,
     k1 <> k2 ->
     dict_get k1 (mappings self) = None ->
     dict_get k2 (mappings self) = None ->
     dict_get k1 (mappings (auto_assign_channels self entities start)) = Some m1 ->
     dict_get k2 (mappings (auto_assign_channels self entities start)) = Some m2 ->
     disjoint_ranges m1 m2) /\
  (forall ms c e,
     dict_mem (st_entity_id e) ms = false ->
     exists m,
       assign_one (ms, c) e
       = (dict_set (st_entity_id e) m ms, c + 1 + len (rgb_channels m)) /\
       dmx_channel m = c /\ c < c + 1 + len (rgb_channels m)).
Proof.
  split.
  - intros k1 k2 m1 m2 Hne H1 H2 Hk1 Hk2.
    pose proof (assign_loop_below (mappings self) entities
                  (mappings self, start)
                  (assigned_below_start _ _)) as [_ Hdis].
    exact (Hdis k1 k2 m1 m2 Hne H1 H2 Hk1 Hk2).
  - intros ms c e Hnew. rewrite assign_one_new by exact Hnew.
    pose proof (allocate_shape (st_entity_id e) (detect_entity_type e)
                  (default (st_entity_id e) (st_friendly_name e)) c) as Hsh.
    destruct (allocate _ _ _ _) as [m c']. simpl.
    destruct Hsh as (_ & _ & _ & Hch & ->).
    exists m. repeat split; [exact Hch | unfold len; lia].
Qed.

Lemma auto_assign_ranges_disjoint_witness :
  disjoint_ranges
    (mkMapping "light.spot" RGBW 1 "Spot" [2; 3; 4; 5])
    (mkMapping "switch.wall" SWITCH 6 "switch.wall" []) /\
  exists m,
    assign_one ([], 1) rgbw_light
    = (dict_set "light.spot" m [], 1 + 1 + len (rgb_channels m)) /\
    dmx_channel m = 1 /\ 1 < 1 + 1 + len (rgb_channels m).
Proof.
  pose proof (auto_assign_ranges_disjoint (with_mappings [])
                [rgbw_light; wall_switch] 1) as [Hd Hs].
  split.
  - apply (Hd "light.spot"%string "switch.wall"%string);
      [discriminate | reflexivity | reflexivity
      | vm_compute; reflexivity | vm_compute; reflexivity].
  - exact (Hs [] 1 rgbw_light eq_refl).
Defined.





End AutoAssign.

(** ** Manual updates of the table *)

Section UpdateMapping.

Import Py Mapper.

(** A device that is not in the table is added without auxiliary channels,
    whatever the type. *)
Lemma update_mapping_new self eid channel new_type :
  dict_get eid (mappings self) = None ->
  dict_get eid (mappings (update_mapping self eid channel new_type))
  = Some (mkMapping eid (default UNKNOWN new_type) channel "" []).
Proof.
  intros H. unfold update_mapping. rewrite H. simpl. apply dict_get_set_eq.
Qed.

(** A device that is in the table and is given a type with auxiliary
    channels gets them, contiguous after the new primary channel. *)
Lemma update_mapping_existing self eid channel t chs m :
  dict_get eid (mappings self) = Some m ->
  channels_after t channel = Some chs ->
  dict_get eid (mappings (update_mapping self eid channel (Some t)))
  = Some (mkMapping (entity_id m) t channel (name m) chs).
Proof.
  intros H Hc. unfold update_mapping. rewrite H. simpl.
  rewrite dict_get_set_eq, Hc. reflexivity.
Qed.

(** C6, evaluated on the code. [update_mapping("light.desk", 10, RGB)] on an
    empty table creates an RGB mapping with no auxiliary channels, where the
    claim has the channels 11, 12, 13. The same call once the device exists
    does set them. *)
Theorem update_mapping_new_rgb_has_no_aux :
  mappings (update_mapping (with_mappings []) "light.desk" 10 (Some RGB))
  = [("light.desk"%string, mkMapping "light.desk" RGB 10 "" [])] /\
  mappings (update_mapping
              (update_mapping (with_mappings []) "light.desk" 10 (Some RGB))
              "light.desk" 10 (Some RGB))
  = [("light.desk"%string, mkMapping "light.desk" RGB 10 "" [11; 12; 13])].
Proof. split; vm_compute; reflexivity. Qed.

End UpdateMapping.

(** ** The command translator *)

Section Translator.

Import Py Mapper.

Implicit Types (m : EntityMapping) (dmx_data : gmap Z Z) (c : Command).

#[local] Arguments command_for : simpl never.

(** On 8-bit values the float computation of the colour temperature is the
    exact quotient, truncated. *)
Lemma kelvin_of_byte v :
  0 <= v <= 255 -> kelvin_of v = Some (kelvin_truncated v).
Proof.
  intros Hv.
  assert (Hall : forallb
                   (fun x => bool_decide
                               (kelvin_of x = Some (kelvin_truncated x)))
                   (seqZ 0 256) = true) by (vm_compute; reflexivity).
  rewrite forallb_forall in Hall.
  specialize (Hall v). rewrite bool_decide_eq_true in Hall. apply Hall.
  apply list_elem_of_In, elem_of_seqZ. lia.
Qed.

Lemma command_for_entity_id m v dmx_data c :
  command_for m v dmx_data = Emit c -> cmd_entity_id c = entity_id m.
Proof.
  unfold command_for. intros H.
  repeat case_match; try discriminate; injection H as <-; reflexivity.
Qed.

Lemma command_for_no_raise m v dmx_data :
  0 <= v <= 255 -> command_for m v dmx_data <> Raise.
Proof.
  intros Hv. unfold command_for.
  destruct (entity_type m); repeat case_match; try discriminate.
  rewrite kelvin_of_byte in * by exact Hv. discriminate.
Qed.

(** A colour mapping with fewer than 3 auxiliary channels appends nothing. *)
Lemma command_for_short m v dmx_data :
  aux_required (entity_type m) <> 0 -> len (rgb_channels m) < 3 ->
  command_for m v dmx_data = Nothing.
Proof.
  intros Hty Hlen. unfold command_for.
  destruct (entity_type m); simpl in Hty; try contradiction;
    (replace (3 <=? len (rgb_channels m)) with false
       by (symmetry; apply Z.leb_gt; exact Hlen)); reflexivity.
Qed.

(** An RGBW or RGBWW mapping with at least 3 auxiliary channels but fewer
    than its type requires is commanded as an RGB one. *)
Lemma command_for_fallback m v dmx_data :
  3 <= len (rgb_channels m) < aux_required (entity_type m) ->
  command_for m v dmx_data
  = Emit (if 0 <? v
          then mkCommand (entity_id m) turn_on (Some v)
                 (Some [get0 dmx_data (item 0 (rgb_channels m) 0);
                        get0 dmx_data (item 0 (rgb_channels m) 1);
                        get0 dmx_data (item 0 (rgb_channels m) 2)])
                 None None None
          else off_command (entity_id m)).
Proof.
  intros [H3 Hreq]. unfold command_for, dmx_to_ha_brightness.
  destruct (entity_type m) eqn:Ety; simpl in Hreq; try lia;
    (replace (3 <=? len (rgb_channels m)) with true
       by (symmetry; apply Z.leb_le; exact H3));
    destruct (0 <? v); try reflexivity.
  - replace (4 <=? len (rgb_channels m)) with false
      by (symmetry; apply Z.leb_gt; lia).
    rewrite andb_false_r. rewrite bool_decide_false by discriminate.
    reflexivity.
  - replace (5 <=? len (rgb_channels m)) with false
      by (symmetry; apply Z.leb_gt; lia).
    rewrite andb_false_r. rewrite bool_decide_false by discriminate.
    reflexivity.
Qed.

Lemma command_step_none dmx_data l : foldl (command_step dmx_data) None l = None.
Proof. induction l as [|x rest IH]; simpl; auto. Qed.

(** Every command of a pass was appended for a mapping of the table whose
    primary channel is in the frame. *)
Lemma command_step_origin dmx_data (all : list EntityMapping) l :
  forall commands processed commands' processed',
    (forall m, m ∈ l -> m ∈ all) ->
    (forall c, c ∈ commands ->
       exists m v, m ∈ all /\ dmx_data !! dmx_channel m = Some v /\
                   command_for m v dmx_data = Emit c) ->
    foldl (command_step dmx_data) (Some (commands, processed)) l
    = Some (commands', processed') ->
    forall c, c ∈ commands' ->
      exists m v, m ∈ all /\ dmx_data !! dmx_channel m = Some v /\
                  command_for m v dmx_data = Emit c.
Proof.
  induction l as [|x rest IH]; intros cs ps cs' ps' Hsub Hinv Hrun.
  - simpl in Hrun. injection Hrun as <- <-. exact Hinv.
  - simpl in Hrun.
    assert (Hrest : forall m, m ∈ rest -> m ∈ all)
      by (intros m Hm; apply Hsub; now right).
    destruct (bool_decide (entity_id x ∈ ps)); [now apply (IH cs ps cs' ps')|].
    destruct (dmx_data !! dmx_channel x) as [v|] eqn:Ev;
      [|now apply (IH cs ps cs' ps')].
    destruct (command_for x v dmx_data) as [| |c0] eqn:Ec.
    + now rewrite command_step_none in Hrun.
    + eapply IH; [exact Hrest | exact Hinv | exact Hrun].
    + eapply (IH (cs ++ [c0])); [exact Hrest| |exact Hrun].
      intros c Hc. apply elem_of_app in Hc as [Hc|Hc]; [now apply Hinv|].
      apply list_elem_of_singleton in Hc as ->.
      exists x, v. split; [apply Hsub; left|]. now split.
Qed.

(** The commands appended so far stay in the list. *)
Lemma command_step_keeps dmx_data l :
  forall commands processed commands' processed' c,
    foldl (command_step dmx_data) (Some (commands, processed)) l
    = Some (commands', processed') ->
    c ∈ commands -> c ∈ commands'.
Proof.
  induction l as [|x rest IH]; intros cs ps cs' ps' c Hrun Hc.
  - simpl in Hrun. now injection Hrun as <- <-.
  - simpl in Hrun.
    destruct (bool_decide (entity_id x ∈ ps)); [now apply (IH cs ps cs' ps')|].
    destruct (dmx_data !! dmx_channel x) as [v|];
      [|now apply (IH cs ps cs' ps')].
    destruct (command_for x v dmx_data) as [| |c0].
    + now rewrite command_step_none in Hrun.
    + eapply IH; [exact Hrun | exact Hc].
    + eapply (IH (cs ++ [c0])); [exact Hrun|].
      apply elem_of_app. now left.
Qed.

(** A mapping whose device was not processed before, in a table without two
    mappings of one device, gets its command into the list. *)
Lemma command_step_emits dmx_data l :
  forall commands processed commands' processed' m v c,
    NoDup (entity_id <$> l) ->
    (forall x, x ∈ l -> entity_id x ∉ processed) ->
    m ∈ l ->
    dmx_data !! dmx_channel m = Some v ->
    command_for m v dmx_data = Emit c ->
    foldl (command_step dmx_data) (Some (commands, processed)) l
    = Some (commands', processed') ->
    c ∈ commands'.
Proof.
  induction l as [|x rest IH];
    intros cs ps cs' ps' m v c Hnd Hfresh Hm Hv Hc Hrun.
  - inversion Hm.
  - rewrite fmap_cons in Hnd. apply NoDup_cons in Hnd as [Hx Hnd].
    assert (Hrest : forall ps0,
              (ps0 = ps \/ ps0 = {[entity_id x]} ∪ ps) ->
              forall y, y ∈ rest -> entity_id y ∉ ps0).
    { intros ps0 [->| ->] y Hy.
      - apply Hfresh. now right.
      - intros Hin. apply elem_of_union in Hin as [Hin|Hin].
        + apply elem_of_singleton in Hin. apply Hx. rewrite <- Hin.
          apply list_elem_of_fmap. now exists y.
        + revert Hin. apply Hfresh. now right. }
    simpl in Hrun.
    rewrite bool_decide_false in Hrun by (apply Hfresh; left).
    apply elem_of_cons in Hm as [->|Hm].
    + rewrite Hv, Hc in Hrun.
      apply (command_step_keeps dmx_data rest _ _ cs' ps' c Hrun).
      apply elem_of_app. right. now left.
    + destruct (dmx_data !! dmx_channel x) as [vx|].
      * destruct (command_for x vx dmx_data) as [| |c0].
        -- now rewrite command_step_none in Hrun.
        -- eapply (IH cs); eauto.
        -- eapply (IH (cs ++ [c0])); eauto.
      * apply (IH cs ps cs' ps' m v c); auto.
Qed.

(** On a frame of 8-bit values the pass raises nothing. *)
Lemma command_step_total dmx_data l :
  byte_frame dmx_data ->
  forall acc, is_Some acc -> is_Some (foldl (command_step dmx_data) acc l).
Proof.
  intros Hb. induction l as [|x rest IH]; intros acc [[cs ps] ->]; simpl;
    [eauto|].
  apply IH.
  destruct (bool_decide (entity_id x ∈ ps)); [eauto|].
  destruct (dmx_data !! dmx_channel x) as [v|] eqn:Ev; [|eauto].
  pose proof (command_for_no_raise x v dmx_data (Hb _ _ Ev)) as Hnr.
  destruct (command_for x v dmx_data); [contradiction|eauto|eauto].
Qed.

Lemma get_entity_commands_total self dmx_data :
  byte_frame dmx_data -> is_Some (get_entity_commands self dmx_data).
Proof.
  intros Hb. unfold get_entity_commands.
  destruct (command_step_total dmx_data (dict_values (mappings self)) Hb
              (Some ([], ∅))) as [r ->]; eauto.
Qed.

Lemma get_entity_commands_origin self dmx_data commands c :
  get_entity_commands self dmx_data = Some commands ->
  c ∈ commands ->
  exists m v, m ∈ dict_values (mappings self) /\
              dmx_data !! dmx_channel m = Some v /\
              command_for m v dmx_data = Emit c.
Proof.
  unfold get_entity_commands. intros Hrun Hc.
  destruct (foldl _ _ _) as [[cs ps]|] eqn:E; [|discriminate].
  simpl in Hrun. injection Hrun as ->.
  apply (command_step_origin dmx_data (dict_values (mappings self))
           (dict_values (mappings self)) [] ∅ commands ps); auto.
  intros c0 Hc0. inversion Hc0.
Qed.

Lemma get_entity_commands_emits self dmx_data commands m v c :
  NoDup (entity_id <$> dict_values (mappings self)) ->
  m ∈ dict_values (mappings self) ->
  dmx_data !! dmx_channel m = Some v ->
  command_for m v dmx_data = Emit c ->
  get_entity_commands self dmx_data = Some commands ->
  c ∈ commands.
Proof.
  unfold get_entity_commands. intros Hnd Hm Hv Hc Hrun.
  destruct (foldl _ _ _) as [[cs ps]|] eqn:E; [|discriminate].
  simpl in Hrun. injection Hrun as ->.
  apply (command_step_emits dmx_data (dict_values (mappings self))
           [] ∅ commands ps m v c); auto.
  intros x _. apply not_elem_of_empty.
Qed.

(** C2 as stated fails: an RGBW mapping with three auxiliary channels, one
    fewer than its type requires, is not skipped. It is activated with the
    RGB triple of its three channels, and deactivated at value 0. *)
Lemma short_rgbw_still_commanded :
  len (rgb_channels short_rgbw) < aux_required (entity_type short_rgbw) /\
  get_entity_commands (with_mappings [("light.bar"%string, short_rgbw)]) scene
  = Some [mkCommand "light.bar" turn_on (Some 128) (Some [255; 0; 64])
            None None None] /\
  get_entity_commands (with_mappings [("light.bar"%string, short_rgbw)])
    dark_scene
  = Some [off_command "light.bar"].
Proof. repeat split; vm_compute; reflexivity. Qed.

(** C2, amended. When every mapping of a device in the table is of type
    RGB, RGBW or RGBWW and has fewer than 3 auxiliary channels, a pass emits
    no command for that device. An RGBW or RGBWW mapping with 3 auxiliary
    channels or more, but fewer than its type requires, is not skipped: it
    is deactivated at value 0 and otherwise activated with its brightness
    and the RGB triple of its first three auxiliary channels. *)
Theorem short_aux_list_skipped self dmx_data eid :
  (forall m, m ∈ dict_values (mappings self) -> entity_id m = eid ->
     aux_required (entity_type m) <> 0 /\ len (rgb_channels m) < 3) ->
  (forall commands c,
     get_entity_commands self dmx_data = Some commands ->
     c ∈ commands -> cmd_entity_id c <> eid) /\
  (forall m v,
     3 <= len (rgb_channels m) < aux_required (entity_type m) ->
     command_for m v dmx_data
     = Emit (if 0 <? v
             then mkCommand (entity_id m) turn_on (Some v)
                    (Some [get0 dmx_data (item 0 (rgb_channels m) 0);
                           get0 dmx_data (item 0 (rgb_channels m) 1);
                           get0 dmx_data (item 0 (rgb_channels m) 2)])
                    None None None
             else off_command (entity_id m))).
Proof.
  intros Hshort. split.
  - intros commands c Hrun Hc Heid.
    destruct (get_entity_commands_origin self dmx_data commands c Hrun Hc)
      as (m & v & Hm & _ & Hemit).
    pose proof (command_for_entity_id m v dmx_data c Hemit) as Hid.
    destruct (Hshort m Hm) as [Hty Hlen]; [congruence|].
    rewrite (command_for_short m v dmx_data Hty Hlen) in Hemit. discriminate.
  - intros m v. apply command_for_fallback.
Qed.

Lemma short_aux_list_skipped_witness :
  get_entity_commands (with_mappings [("light.desk"%string, bare_rgb)]) scene
  = Some [] /\
  forall c, c ∈ ([] : list Command) -> cmd_entity_id c <> "light.desk"%string.
Proof.
  split; [vm_compute; reflexivity|].
  intros c.
  apply (proj1 (short_aux_list_skipped
                  (with_mappings [("light.desk"%string, bare_rgb)]) scene
                  "light.desk"
                  ltac:(intros m Hm _;
                        apply list_elem_of_singleton in Hm as ->;
                        split; [discriminate | reflexivity]))
           [] c).
  vm_compute. reflexivity.
Defined.

(** C4 as stated fails: the code truncates the colour temperature, it does
    not round it. At value 1 the exact temperature is 2017.6...: the command
    has 2017 kelvin, the nearest integer is 2018. *)
Lemma kelvin_truncated_not_rounded :
  kelvin_of 1 = Some 2017 /\
  kelvin_rounded 1 = 2018 /\
  get_entity_commands (with_mappings [("light.lamp"%string, warm_lamp)])
    dim_scene
  = Some [mkCommand "light.lamp" turn_on (Some 1) None None None (Some 2017)].
Proof. repeat split; vm_compute; reflexivity. Qed.

(** C4, amended. For a ColorTemperature mapping whose primary channel has
    the 8-bit value [v] in the frame, in a table that maps no device twice:
    [v = 0] yields a deactivate command with no kelvin field, and [v > 0]
    yields an activate command with brightness [v] and kelvin the exact
    value [2000 + (v / 255) * 4500] truncated to an integer; [v = 255]
    yields 6500 kelvin. *)
Theorem color_temp_command self dmx_data m v :
  NoDup (entity_id <$> dict_values (mappings self)) ->
  m ∈ dict_values (mappings self) ->
  entity_type m = COLOR_TEMP ->
  byte_frame dmx_data ->
  dmx_data !! dmx_channel m = Some v ->
  exists commands,
    get_entity_commands self dmx_data = Some commands /\
    (v = 0 ->
     off_command (entity_id m) ∈ commands /\
     action (off_command (entity_id m)) = turn_off /\
     kelvin (off_command (entity_id m)) = None) /\
    (0 < v ->
     mkCommand (entity_id m) turn_on (Some v) None None None
       (Some (kelvin_truncated v)) ∈ commands) /\
    kelvin_truncated 255 = 6500.
Proof.
  intros Hnd Hm Hty Hb Hv.
  destruct (get_entity_commands_total self dmx_data Hb) as [commands Hrun].
  exists commands. split; [exact Hrun|].
  pose proof (Hb _ _ Hv) as Hrange.
  split; [|split].
  - intros ->. split; [|split; reflexivity].
    apply (get_entity_commands_emits self dmx_data commands m 0); auto.
    unfold command_for. rewrite Hty. reflexivity.
  - intros Hpos.
    apply (get_entity_commands_emits self dmx_data commands m v); auto.
    unfold command_for, dmx_to_ha_brightness. rewrite Hty.
    replace (0 <? v) with true by (symmetry; apply Z.ltb_lt; exact Hpos).
    rewrite kelvin_of_byte by exact Hrange. reflexivity.
  - vm_compute. reflexivity.
Qed.

Lemma color_temp_command_witness :
  exists commands,
    get_entity_commands (with_mappings [("light.lamp"%string, warm_lamp)]) scene
    = Some commands /\
    mkCommand "light.lamp" turn_on (Some 255) None None None (Some 6500)
      ∈ commands.
Proof.
  assert (Hnd : NoDup (entity_id <$> dict_values
                         (mappings (with_mappings
                                      [("light.lamp"%string, warm_lamp)]))))
    by (apply NoDup_singleton).
  assert (Hm : warm_lamp ∈ dict_values
                 (mappings (with_mappings [("light.lamp"%string, warm_lamp)])))
    by (apply list_elem_of_singleton; reflexivity).
  assert (Hb : byte_frame scene)
    by (unfold byte_frame; eapply (bool_decide_unpack _); vm_compute; exact I).
  destruct (color_temp_command _ scene warm_lamp 255 Hnd Hm eq_refl Hb eq_refl)
    as (commands & Hrun & _ & Hpos & _).
  exists commands. split; [exact Hrun | exact (Hpos ltac:(lia))].
Defined.

End Translator.

(** ** Throttled dispatch *)

Section Throttle.

Import Mapper Bridge.

Implicit Types (self : BridgeController) (t : Q) (c : Command).

Lemma Qlt_bool_true a b : Qlt_bool a b = true <-> (a < b)%Q.
Proof.
  unfold Qlt_bool. rewrite negb_true_iff.
  destruct (Qle_bool b a) eqn:E.
  - apply Qle_bool_iff in E. split; [discriminate|].
    intros H. exfalso. exact (Qlt_not_le _ _ H E).
  - split; [intros _|reflexivity].
    apply Qnot_le_lt. intros H. apply Qle_bool_iff in H. congruence.
Qed.


Lemma last_sent_snoc log t c eid :
  last_sent (log ++ [(t, c)]) eid
  = if String.eqb (cmd_entity_id c) eid then Some t else last_sent log eid.
Proof.
  induction log as [|[t0 c0] rest IH]; simpl.
  - reflexivity.
  - rewrite IH. destruct (String.eqb (cmd_entity_id c) eid); [reflexivity|].
    reflexivity.
Qed.





Lemma dispatch_consistent ha t self c :
  consistent self -> consistent (dispatch ha t self c).
Proof.
  intros Hc. unfold dispatch.
  destruct (throttled _ _ _); [exact Hc|].
  destruct (ha c); [|exact Hc].
  intros eid. simpl. rewrite last_sent_snoc.
  destruct (String.eqb (cmd_entity_id c) eid) eqn:E.
  - apply String.eqb_eq in E as ->. apply lookup_insert_eq.
  - apply String.eqb_neq in E. rewrite lookup_insert_ne by exact E. apply Hc.
Qed.

Lemma dispatch_all_consistent ha t commands : forall self,
  consistent self -> consistent (dispatch_all ha t self commands).
Proof.
  induction commands as [|c rest IH]; intros self Hc; simpl; [exact Hc|].
  apply IH. now apply dispatch_consistent.
Qed.




(** A connected pass dispatches the commands of the translator, in order. *)
Lemma process_connected ha mapper t self dmx_data commands :
  get_entity_commands mapper dmx_data = Some commands ->
  _process_dmx_data ha true mapper t self dmx_data
  = dispatch_all ha t self commands.
Proof. unfold _process_dmx_data. now intros ->. Qed.

(** A pass without a connected client does nothing. *)
Lemma process_disconnected ha mapper t self dmx_data :
  _process_dmx_data ha false mapper t self dmx_data = self.
Proof. reflexivity. Qed.

(** Two passes for a switch on channel 1, 20 ms apart: the frame of the
    second pass turns the switch off, and the command is suppressed. *)
Example switch_passes_20ms_apart :
  let mapper := auto_assign_channels (with_mappings []) [wall_switch] 1 in
  let on_frame := ArtNet.channel_dict [200] in
  let off_frame := ArtNet.channel_dict [100] in
  let ha := fun _ : Command => Returned in
  sent (_process_dmx_data ha true mapper (1000 + 0.02)
          (_process_dmx_data ha true mapper 1000 Bridge.init on_frame)
          off_frame)
  = [(1000%Q, switch_on)].
Proof. vm_compute. reflexivity. Qed.

End Throttle.

(** * Further properties of the code *)

(** ** The frame decoder and the receiver *)

Section ReceiverMore.

Import ArtNet.

(** Two bytes combined as [hi << 8 | lo] are the number [256 * hi + lo]. *)
Lemma lor_shiftl_bytes a b :
  0 <= a -> 0 <= b < 256 -> Z.lor (Z.shiftl a 8) b = 256 * a + b.
Proof.
  intros Ha Hb.
  assert (Hland : Z.land (Z.shiftl a 8) b = 0).
  { apply Z.bits_inj'. intros n Hn.
    rewrite Z.land_spec, Z.bits_0.
    destruct (Z.lt_ge_cases n 8) as [Hlt|Hge].
    - rewrite Z.shiftl_spec_low by exact Hlt. reflexivity.
    - destruct (Z.eq_dec b 0) as [->|Hb0].
      + rewrite Z.bits_0. apply andb_false_r.
      + rewrite (Z.bits_above_log2 b n); [apply andb_false_r | lia |].
        assert (Z.log2 b < 8) by (apply Z.log2_lt_pow2; lia). lia. }
  rewrite <- Z.lxor_lor by exact Hland.
  rewrite <- Z.add_nocarry_lxor by exact Hland.
  rewrite Z.shiftl_mul_pow2 by lia. lia.
Qed.

Lemma deliver_dmx_data r frame : dmx_data (deliver r frame) = frame.
Proof.
  unfold deliver. case_bool_decide as H; simpl; [reflexivity|].
  destruct (decide (frame = dmx_data r)) as [E|E]; [now symmetry|].
  contradiction.
Qed.

Lemma deliver_universe r frame : universe (deliver r frame) = universe r.
Proof. unfold deliver. now case_bool_decide. Qed.

Lemma deliver_callback r frame : callback (deliver r frame) = callback r.
Proof. unfold deliver. now case_bool_decide. Qed.

Lemma parse_universe r data : universe (_parse_artnet_packet r data) = universe r.
Proof.
  unfold _parse_artnet_packet. destruct (decode _ _); [|reflexivity].
  apply deliver_universe.
Qed.

Lemma parse_callback r data : callback (_parse_artnet_packet r data) = callback r.
Proof.
  unfold _parse_artnet_packet. destruct (decode _ _); [|reflexivity].
  apply deliver_callback.
Qed.

Lemma decode_none_cases u data :
  decode u data = None ->
  Py.len data < 18 \/
  Py.slice_to data 8 <> ARTNET_HEADER \/
  unpack_le16 data 8 <> ARTNET_DMX \/
  Z.lor (Py.byte_val (Py.item x00 data 14))
        (Z.shiftl (Py.byte_val (Py.item x00 data 15)) 8) <> u \/
  Py.len data < 18 + unpack_be16 data 16.
Proof.
  unfold decode.
  destruct (Py.len data <? 18) eqn:E1.
  { apply Z.ltb_lt in E1. auto. }
  destruct (decide (Py.slice_to data 8 = ARTNET_HEADER)) as [E2|E2].
  2:{ auto. }
  rewrite bool_decide_true by exact E2. simpl.
  destruct (unpack_le16 data 8 =? ARTNET_DMX) eqn:E3; simpl.
  2:{ apply Z.eqb_neq in E3. auto. }
  destruct (_ =? u) eqn:E4; simpl.
  2:{ apply Z.eqb_neq in E4. auto. }
  destruct (Py.len data <? 18 + unpack_be16 data 16) eqn:E5.
  { apply Z.ltb_lt in E5. auto 6. }
  discriminate.
Qed.


(** X2. A well-formed datagram decodes to its payload: with the signature,
    the opcode, a universe byte and a length field that does not exceed the
    bytes that follow, the frame is the declared number of payload bytes, in
    order, padded with zeros to 512 slots. Bytes after the declared payload
    are ignored. *)
Theorem decode_dmx_packet u_low len_hi len_lo payload :
  256 * Py.byte_val len_hi + Py.byte_val len_lo <= Py.len payload ->
  decode (Py.byte_val u_low) (dmx_packet u_low len_hi len_lo payload)
  = Some (pad512
            (Py.byte_val
               <$> take (Z.to_nat (256 * Py.byte_val len_hi + Py.byte_val len_lo))
                     payload)).
Proof.
  intros Hn.
  pose proof (byte_val_range len_hi) as Hhi.
  pose proof (byte_val_range len_lo) as Hlo.
  set (data := dmx_packet u_low len_hi len_lo payload).
  assert (Hlen : Py.len data = 18 + Py.len payload).
  { unfold Py.len, data, dmx_packet. rewrite !length_app. simpl. lia. }
  assert (Hbe : unpack_be16 data 16
                = 256 * Py.byte_val len_hi + Py.byte_val len_lo).
  { unfold unpack_be16.
    change (Py.item x00 data 16) with len_hi.
    change (Py.item x00 data (16 + 1)) with len_lo.
    apply lor_shiftl_bytes; lia. }
  destruct (decode (Py.byte_val u_low) data) as [frame|] eqn:E.
  - apply decode_accepted in E as (_ & -> & _). rewrite Hbe.
    unfold pad512. rewrite length_fmap, length_take.
    rewrite slice_in_range by (rewrite ?Hlen; lia).
    replace (Z.to_nat (18 + (256 * Py.byte_val len_hi + Py.byte_val len_lo) - 18))
      with (Z.to_nat (256 * Py.byte_val len_hi + Py.byte_val len_lo)) by lia.
    change (drop (Z.to_nat 18) data) with payload.
    do 3 f_equal. unfold Py.len in Hn. lia.
  - exfalso. apply decode_none_cases in E.
    destruct E as [H|[H|[H|[H|H]]]].
    + rewrite Hlen in H. unfold Py.len in H. lia.
    + apply H. unfold Py.slice_to.
      rewrite slice_in_range by (rewrite ?Hlen; unfold Py.len; lia).
      reflexivity.
    + apply H. reflexivity.
    + apply H.
      change (Py.item x00 data 14) with u_low.
      change (Py.item x00 data 15) with x00.
      change (Z.shiftl (Py.byte_val x00) 8) with 0. apply Z.lor_0_r.
    + rewrite Hlen, Hbe in H. lia.
Qed.

Lemma decode_dmx_packet_witness :
  decode 0 (dmx_packet x00 x00 x02 [x07; x09; x0b])
  = Some ([7; 9] ++ replicate 510 0).
Proof.
  exact (decode_dmx_packet x00 x00 x02 [x07; x09; x0b]
           ltac:(vm_compute; discriminate)).
Defined.

Lemma default_lookup_replicate_zero (k j : nat) :
  default 0 (replicate k 0 !! j) = 0.
Proof.
  destruct (replicate k 0 !! j) as [y|] eqn:E; [|reflexivity].
  apply lookup_replicate in E as [-> _]. reflexivity.
Qed.

(** X3. After an accepted datagram, channel [ch] (1 to 512) reads the
    payload byte at offset [ch - 1] when the declared payload reaches that
    far, and 0 otherwise: extraction is exact, padding is zero. *)
Theorem get_channel_after_packet r data frame ch :
  decode (universe r) data = Some frame ->
  1 <= ch <= 512 ->
  get_channel (_parse_artnet_packet r data) ch
  = if ch <=? unpack_be16 data 16
    then Py.byte_val (Py.item x00 data (17 + ch))
    else 0.
Proof.
  intros Hdec Hch. unfold _parse_artnet_packet. rewrite Hdec.
  unfold get_channel. rewrite deliver_dmx_data.
  replace ((1 <=? ch) && (ch <=? 512)) with true
    by (symmetry; apply andb_true_iff; split; lia).
  apply decode_accepted in Hdec as (Hfit & -> & _).
  pose proof (unpack_be16_nonneg data 16) as Hn.
  set (n := unpack_be16 data 16) in *.
  rewrite slice_in_range by lia.
  replace (Z.to_nat (18 + n - 18)) with (Z.to_nat n) by lia.
  unfold Py.item. rewrite nth_lookup.
  destruct (ch <=? n) eqn:E.
  - apply Z.leb_le in E.
    assert (Hlt : (Z.to_nat (ch - 1) < Z.to_nat n)%nat) by lia.
    rewrite lookup_app_l
      by (rewrite length_fmap, length_take, length_drop; unfold Py.len in Hfit; lia).
    rewrite list_lookup_fmap, lookup_take_lt by exact Hlt.
    rewrite lookup_drop.
    replace (Z.to_nat 18 + Z.to_nat (ch - 1))%nat with (Z.to_nat (17 + ch)) by lia.
    destruct (nth_lookup_or_length data (Z.to_nat (17 + ch)) x00) as [->|Hge].
    + reflexivity.
    + unfold Py.len in Hfit. lia.
  - apply Z.leb_gt in E.
    rewrite lookup_app_r
      by (rewrite length_fmap, length_take, length_drop; lia).
    apply default_lookup_replicate_zero.
Qed.

Lemma get_channel_after_packet_witness :
  get_channel (_parse_artnet_packet (init 0) one_packet) 1 = 1 /\
  get_channel (_parse_artnet_packet (init 0) one_packet) 2 = 0.
Proof.
  assert (Hdec : decode (universe (init 0)) one_packet
                 = Some (1 :: replicate 511 0)) by (vm_compute; reflexivity).
  split.
  - rewrite (get_channel_after_packet (init 0) one_packet _ 1 Hdec ltac:(lia)).
    reflexivity.
  - rewrite (get_channel_after_packet (init 0) one_packet _ 2 Hdec ltac:(lia)).
    reflexivity.
Defined.

Lemma decode_bytes u data frame :
  decode u data = Some frame -> Forall (fun v => 0 <= v <= 255) frame.
Proof.
  intros H. apply decode_accepted in H as (_ & -> & _).
  apply Forall_app. split.
  - apply Forall_fmap, Forall_forall. intros b _. simpl.
    pose proof (byte_val_range b). lia.
  - apply Forall_replicate. lia.
Qed.

Lemma parse_bytes r data :
  Forall (fun v => 0 <= v <= 255) (dmx_data r) ->
  Forall (fun v => 0 <= v <= 255) (dmx_data (_parse_artnet_packet r data)).
Proof.
  intros H. unfold _parse_artnet_packet.
  destruct (decode (universe r) data) as [f|] eqn:E; [|exact H].
  rewrite deliver_dmx_data. now apply decode_bytes in E.
Qed.

Lemma receive_all_bytes datagrams : forall r,
  Forall (fun v => 0 <= v <= 255) (dmx_data r) ->
  Forall (fun v => 0 <= v <= 255) (dmx_data (receive_all r datagrams)).
Proof.
  induction datagrams as [|d ds IH]; intros r H; simpl; [exact H|].
  apply IH. now apply parse_bytes.
Qed.

(** X4. Whatever datagrams arrive, the frame the receiver stores has at
    least 512 values and every value is an unsigned 8-bit value. *)
Theorem stored_frame_invariant u registered datagrams :
  (512 <= length (dmx_data
                    (receive_all
                       (if registered : bool then set_callback (init u)
                        else init u)
                       datagrams)))%nat /\
  Forall (fun v => 0 <= v <= 255)
    (dmx_data
       (receive_all
          (if registered : bool then set_callback (init u) else init u)
          datagrams)).
Proof.
  split.
  - apply receive_all_length. destruct registered; vm_compute; lia.
  - apply receive_all_bytes.
    destruct registered;
      change (Forall (fun v => 0 <= v <= 255) (replicate 512 0));
      apply Forall_replicate; lia.
Qed.

Lemma channel_dict_lookup_from (l : list Z) : forall off ch,
  (list_to_map (imap (fun i v => (Z.of_nat i + off, v)) l) : gmap Z Z) !! ch
  = if bool_decide (off <= ch < off + Py.len l)
    then l !! Z.to_nat (ch - off) else None.
Proof.
  induction l as [|x rest IH]; intros off ch.
  - simpl. rewrite lookup_empty. unfold Py.len. simpl.
    rewrite bool_decide_false by lia. reflexivity.
  - simpl.
    rewrite (imap_ext _ (fun i v => (Z.of_nat i + (off + 1), v)))
      by (intros i v _; simpl; f_equal; lia).
    destruct (decide (ch = off)) as [->|Hne].
    + rewrite lookup_insert_eq.
      rewrite bool_decide_true by (unfold Py.len; simpl; lia).
      replace (Z.to_nat (off - off)) with 0%nat by lia. reflexivity.
    + rewrite lookup_insert_ne by (simpl; lia). rewrite IH.
      unfold Py.len. simpl length.
      destruct (decide (off + 1 <= ch < off + 1 + Z.of_nat (length rest)))
        as [Hin|Hout].
      * rewrite !bool_decide_true by lia.
        replace (Z.to_nat (ch - off)) with (S (Z.to_nat (ch - (off + 1))))
          by lia.
        reflexivity.
      * rewrite !bool_decide_false by lia. reflexivity.
Qed.

(** The dictionary seen by index: the value at index [i] is under the key
    [i + 1], and every key is such a key. *)
Lemma channel_dict_get (l : list Z) (i : nat) :
  channel_dict l !! (Z.of_nat i + 1) = l !! i.
Proof.
  unfold channel_dict. rewrite (channel_dict_lookup_from l 1).
  replace (Z.to_nat (Z.of_nat i + 1 - 1)) with i by lia.
  case_bool_decide as H; [reflexivity|].
  symmetry. apply lookup_ge_None_2. unfold Py.len in H. lia.
Qed.

Lemma channel_dict_key (l : list Z) ch v :
  channel_dict l !! ch = Some v ->
  exists i : nat, ch = Z.of_nat i + 1 /\ l !! i = Some v.
Proof.
  unfold channel_dict. rewrite (channel_dict_lookup_from l 1).
  case_bool_decide as H; [|discriminate].
  intros Hget. exists (Z.to_nat (ch - 1)). split; [lia | exact Hget].
Qed.

(** X5. The dictionary handed to the callback is 1-indexed: its keys are
    the channels 1 to the length of the frame, and channel [ch] holds the
    value at index [ch - 1] of the frame. *)
Theorem channel_dict_lookup l ch :
  channel_dict l !! ch
  = if bool_decide (1 <= ch <= Py.len l) then l !! Z.to_nat (ch - 1) else None.
Proof.
  unfold channel_dict. rewrite (channel_dict_lookup_from l 1 ch).
  destruct (decide (1 <= ch <= Py.len l)) as [H|H].
  - rewrite !bool_decide_true by lia. reflexivity.
  - rewrite !bool_decide_false by lia. reflexivity.
Qed.

Lemma channel_dict_inj l1 l2 : channel_dict l1 = channel_dict l2 -> l1 = l2.
Proof.
  intros H. apply list_eq. intros i.
  rewrite <- !channel_dict_get. now rewrite H.
Qed.

Lemma deliver_log r frame :
  callback r = true ->
  (calls r = [] -> dmx_data r = replicate 512 0) ->
  (forall d, last (calls r) = Some d -> d = channel_dict (dmx_data r)) ->
  (forall i d1 d2,
     calls r !! i = Some d1 -> calls r !! S i = Some d2 -> d1 <> d2) ->
  (calls (deliver r frame) = [] -> dmx_data (deliver r frame) = replicate 512 0) /\
  (forall d, last (calls (deliver r frame)) = Some d ->
     d = channel_dict (dmx_data (deliver r frame))) /\
  (forall i d1 d2,
     calls (deliver r frame) !! i = Some d1 ->
     calls (deliver r frame) !! S i = Some d2 -> d1 <> d2).
Proof.
  intros Hcb Hempty Hlast Hadj. unfold deliver.
  case_bool_decide as Hne; [|auto]. simpl. rewrite Hcb.
  split; [|split].
  - intros H. now apply app_nil in H as [_ [=]].
  - intros d. rewrite last_snoc. now intros [= <-].
  - intros i d1 d2 H1 H2.
    destruct (decide (S i < length (calls r))%nat) as [Hlt|Hge].
    + rewrite lookup_app_l in H1 by lia. rewrite lookup_app_l in H2 by lia.
      now apply (Hadj i).
    + assert (Hi : S i = length (calls r)).
      { apply lookup_lt_Some in H2. rewrite length_app in H2. simpl in H2. lia. }
      rewrite lookup_app_l in H1 by lia.
      rewrite lookup_app_r in H2 by lia.
      replace (S i - length (calls r))%nat with 0%nat in H2 by lia.
      injection H2 as <-.
      assert (Hd1 : last (calls r) = Some d1).
      { rewrite last_lookup. rewrite <- Hi. exact H1. }
      apply Hlast in Hd1 as ->.
      intros Heq. apply channel_dict_inj in Heq. congruence.
Qed.

Lemma receive_all_log datagrams : forall r,
  callback r = true ->
  (calls r = [] -> dmx_data r = replicate 512 0) ->
  (forall d, last (calls r) = Some d -> d = channel_dict (dmx_data r)) ->
  (forall i d1 d2,
     calls r !! i = Some d1 -> calls r !! S i = Some d2 -> d1 <> d2) ->
  (calls (receive_all r datagrams) = [] ->
   dmx_data (receive_all r datagrams) = replicate 512 0) /\
  (forall d, last (calls (receive_all r datagrams)) = Some d ->
     d = channel_dict (dmx_data (receive_all r datagrams))) /\
  (forall i d1 d2,
     calls (receive_all r datagrams) !! i = Some d1 ->
     calls (receive_all r datagrams) !! S i = Some d2 -> d1 <> d2).
Proof.
  induction datagrams as [|d ds IH]; intros r Hcb H1 H2 H3; simpl; [auto|].
  assert (Hstep :
    (calls (_parse_artnet_packet r d) = [] ->
     dmx_data (_parse_artnet_packet r d) = replicate 512 0) /\
    (forall x, last (calls (_parse_artnet_packet r d)) = Some x ->
       x = channel_dict (dmx_data (_parse_artnet_packet r d))) /\
    (forall i d1 d2,
       calls (_parse_artnet_packet r d) !! i = Some d1 ->
       calls (_parse_artnet_packet r d) !! S i = Some d2 -> d1 <> d2)).
  { unfold _parse_artnet_packet.
    destruct (decode (universe r) d); [now apply deliver_log | auto]. }
  destruct Hstep as (S1 & S2 & S3).
  apply IH; auto. now rewrite parse_callback.
Qed.

(** A receiver that has not fired its callback yet has an empty log. *)
Lemma new_receiver_log u :
  (forall d, last (calls (set_callback (init u))) = Some d ->
     d = channel_dict (dmx_data (set_callback (init u)))) /\
  (forall i d1 d2,
     calls (set_callback (init u)) !! i = Some d1 ->
     calls (set_callback (init u)) !! S i = Some d2 -> d1 <> d2).
Proof.
  split.
  - intros d H. change (last (@nil (gmap Z Z)) = Some d) in H. discriminate.
  - intros i d1 d2 H.
    change ((@nil (gmap Z Z)) !! i = Some d1) in H. now rewrite lookup_nil in H.
Qed.

(** X6. On a receiver created with a callback, whatever datagrams arrive:
    while the callback has not fired the stored frame is still 512 zeros;
    once it has, its last argument is the dictionary of the stored frame;
    and two consecutive invocations never carry the same dictionary. *)
Theorem callback_log_invariant u datagrams :
  (calls (receive_all (set_callback (init u)) datagrams) = [] ->
   dmx_data (receive_all (set_callback (init u)) datagrams) = replicate 512 0) /\
  (forall d,
     last (calls (receive_all (set_callback (init u)) datagrams)) = Some d ->
     d = channel_dict (dmx_data (receive_all (set_callback (init u)) datagrams))) /\
  (forall i d1 d2,
     calls (receive_all (set_callback (init u)) datagrams) !! i = Some d1 ->
     calls (receive_all (set_callback (init u)) datagrams) !! S i = Some d2 ->
     d1 <> d2).
Proof.
  destruct (new_receiver_log u) as [Hlast Hadj].
  apply receive_all_log.
  - reflexivity.
  - reflexivity.
  - exact Hlast.
  - exact Hadj.
Qed.

(** X7. Sending the same datagram again right away changes nothing: the
    second copy neither updates the stored frame nor fires the callback. *)
Theorem resent_datagram_is_ignored r data :
  _parse_artnet_packet (_parse_artnet_packet r data) data
  = _parse_artnet_packet r data.
Proof.
  unfold _parse_artnet_packet at 1. rewrite parse_universe.
  destruct (decode (universe r) data) as [f|] eqn:E; [|reflexivity].
  unfold _parse_artnet_packet. rewrite E.
  unfold deliver at 1. rewrite deliver_dmx_data.
  rewrite bool_decide_false by (intros H; now apply H). reflexivity.
Qed.

End ReceiverMore.

(** ** Persistence of the mapping table *)

Section Persistence.

Import Py Mapper.

Lemma type_of_value_value t : type_of_value (type_value t) = Some t.
Proof. destruct t; reflexivity. Qed.

Lemma type_of_value_inv s t : type_of_value s = Some t -> s = type_value t.
Proof.
  unfold type_of_value.
  destruct (String.eqb_spec s "switch") as [->|_]; [now intros [= <-]|].
  destruct (String.eqb_spec s "dimmer") as [->|_]; [now intros [= <-]|].
  destruct (String.eqb_spec s "rgb") as [->|_]; [now intros [= <-]|].
  destruct (String.eqb_spec s "rgbw") as [->|_]; [now intros [= <-]|].
  destruct (String.eqb_spec s "rgbww") as [->|_]; [now intros [= <-]|].
  destruct (String.eqb_spec s "color_temp") as [->|_]; [now intros [= <-]|].
  destruct (String.eqb_spec s "unknown") as [->|_]; [now intros [= <-]|].
  discriminate.
Qed.

Lemma from_dict_round_trip m : from_dict (to_dict m) = Some m.
Proof.
  unfold from_dict, to_dict. simpl.
  rewrite type_of_value_value. now destruct m.
Qed.

Lemma from_dict_none d :
  from_dict d = None <-> forall t, s_entity_type d <> type_value t.
Proof.
  unfold from_dict.
  destruct (type_of_value (s_entity_type d)) as [t|] eqn:E.
  - split; [discriminate|]. intros H. exfalso.
    apply (H t). now apply type_of_value_inv.
  - split; [|reflexivity]. intros _ t Heq.
    rewrite Heq, type_of_value_value in E. discriminate.
Qed.


Lemma load_entries_saved ms :
  load_entries ((fun km => (km.1, to_dict km.2)) <$> ms) = Some ms.
Proof.
  induction ms as [|[k m] rest IH]; [reflexivity|].
  rewrite fmap_cons. cbn [load_entries fst snd].
  now rewrite from_dict_round_trip, IH.
Qed.

(** X9. Saving a table and loading the file again, into any mapper, gives
    the same table: the same devices in the same order with the same types,
    channels and names, and the channel index rebuilt from them. *)
Theorem load_saved_mappings self other :
  load_mappings other (Some (saved_data self)) = with_mappings (mappings self) /\
  mappings (new_mapper (Some (saved_data self))) = mappings self.
Proof.
  unfold new_mapper, load_mappings, saved_data.
  rewrite load_entries_saved. split; reflexivity.
Qed.

Lemma load_entries_none data :
  load_entries data = None
  <-> exists k d, (k, d) ∈ data /\ from_dict d = None.
Proof.
  induction data as [|[k d] rest IH]; simpl.
  - split; [discriminate|]. intros (k & d & H & _). inversion H.
  - destruct (from_dict d) as [m|] eqn:E.
    + destruct (load_entries rest) as [ms|] eqn:Er.
      * split; [discriminate|]. intros (k' & d' & Hin & Hnone).
        apply elem_of_cons in Hin as [[= -> ->]|Hin]; [congruence|].
        assert (H : @None (list (string * EntityMapping)) = None) by reflexivity.
        destruct IH as [_ IH]. discriminate IH. now exists k', d'.
      * split; [intros _|reflexivity].
        destruct IH as [IH _]. destruct (IH eq_refl) as (k' & d' & Hin & Hn).
        exists k', d'. split; [now right | exact Hn].
    + split; [intros _|reflexivity]. exists k, d. split; [left | exact E].
Qed.

(** X10. Loading is all or nothing: when the file is missing, or one of its
    entries has a type string that is the value of no device type, the
    mapper keeps the table and the index it had. *)
Theorem load_mappings_failure self data k d :
  (k, d) ∈ data ->
  (forall t, s_entity_type d <> type_value t) ->
  load_mappings self (Some data) = self /\ load_mappings self None = self.
Proof.
  intros Hin Hbad. split; [|reflexivity].
  unfold load_mappings.
  assert (Hnone : load_entries data = None).
  { apply load_entries_none. exists k, d. split; [exact Hin|].
    now apply from_dict_none. }
  now rewrite Hnone.
Qed.

Lemma load_mappings_failure_witness :
  load_mappings (with_mappings [("light.bar"%string, short_rgbw)])
    (Some [("light.lamp"%string, to_dict warm_lamp);
           ("light.x"%string, mkStored "light.x" "RGB" 1 "" [])])
  = with_mappings [("light.bar"%string, short_rgbw)].
Proof.
  assert (Hin : ("light.x"%string, mkStored "light.x" "RGB" 1 "" [])
                ∈ [("light.lamp"%string, to_dict warm_lamp);
                   ("light.x"%string, mkStored "light.x" "RGB" 1 "" [])])
    by (right; left).
  assert (Hbad : forall t,
             s_entity_type (mkStored "light.x" "RGB" 1 "" []) <> type_value t)
    by (intros t; destruct t; discriminate).
  exact (proj1 (load_mappings_failure
                  (with_mappings [("light.bar"%string, short_rgbw)])
                  _ _ _ Hin Hbad)).
Defined.

End Persistence.

(** ** The channel index *)

Section ChannelIndex.

Import Py Mapper.

Implicit Types (ms : list (string * EntityMapping)) (m : EntityMapping).

Lemma index_aux_fold eid (chs : list Z) : forall (idx : gmap Z string) c,
  foldl (fun idx channel => <[channel := eid]> idx) idx chs !! c
  = if decide (c ∈ chs) then Some eid else idx !! c.
Proof.
  induction chs as [|x rest IH]; intros idx c; simpl.
  - destruct (decide (c ∈ [])) as [H|_]; [inversion H | reflexivity].
  - rewrite IH.
    destruct (decide (c ∈ rest)) as [Hin|Hout].
    + rewrite decide_True by (now right). reflexivity.
    + destruct (decide (c = x)) as [->|Hne].
      * rewrite decide_True by left. apply lookup_insert_eq.
      * rewrite decide_False
          by (intros H; apply elem_of_cons in H as [H|H]; contradiction).
        now apply lookup_insert_ne.
Qed.

Lemma rebuild_snoc ms eid m c :
  uses_channel m c /\
  _rebuild_channel_index (ms ++ [(eid, m)]) !! c = Some eid
  \/
  ~ uses_channel m c /\
  _rebuild_channel_index (ms ++ [(eid, m)]) !! c
  = _rebuild_channel_index ms !! c.
Proof.
  unfold _rebuild_channel_index. rewrite foldl_snoc. rewrite index_aux_fold.
  unfold uses_channel.
  destruct (decide (c ∈ rgb_channels m)) as [Hin|Hout]; [left; auto|].
  destruct (decide (c = dmx_channel m)) as [->|Hne].
  - left. split; [now left|]. apply lookup_insert_eq.
  - right. split; [intros [H|H]; contradiction|].
    now apply lookup_insert_ne.
Qed.

(** X11. The channel index is exact about what it holds: a channel it maps
    to a device is the primary or an auxiliary channel of the mapping stored
    under that device, and every channel that some mapping of the table uses
    is in the index. *)
Theorem channel_index_sound_complete ms c :
  (forall eid,
     _rebuild_channel_index ms !! c = Some eid ->
     exists m, (eid, m) ∈ ms /\ uses_channel m c) /\
  (forall eid m,
     (eid, m) ∈ ms -> uses_channel m c ->
     is_Some (_rebuild_channel_index ms !! c)).
Proof.
  induction ms as [|[k m0] rest IH] using rev_ind.
  - split.
    + intros eid H. unfold _rebuild_channel_index in H. simpl in H.
      now rewrite lookup_empty in H.
    + intros eid m H. inversion H.
  - destruct IH as [IHs IHc].
    destruct (rebuild_snoc rest k m0 c) as [[Hu Hl]|[Hu Hl]]; rewrite Hl.
    + split.
      * intros eid [= <-]. exists m0. split; [|exact Hu].
        apply elem_of_app. right. left.
      * eauto.
    + split.
      * intros eid H. destruct (IHs eid H) as (m & Hin & Hm).
        exists m. split; [|exact Hm]. apply elem_of_app. now left.
      * intros eid m Hin Hm. apply elem_of_app in Hin as [Hin|Hin].
        -- now apply (IHc eid m).
        -- apply list_elem_of_singleton in Hin as [= -> ->]. contradiction.
Qed.

(** X12. When mappings overlap, the index gives a channel to the last
    mapping of the table that uses it; so when a channel is used by one
    mapping only, the index maps it to that device. *)
Theorem channel_index_last_wins pre post eid m c :
  uses_channel m c ->
  (forall k m', (k, m') ∈ post -> ~ uses_channel m' c) ->
  _rebuild_channel_index (pre ++ (eid, m) :: post) !! c = Some eid.
Proof.
  intros Hu. induction post as [|[k m0] rest IH] using rev_ind; intros Hfree.
  - destruct (rebuild_snoc pre eid m c) as [[_ Hl]|[Hn _]];
      [exact Hl | contradiction].
  - replace (pre ++ (eid, m) :: rest ++ [(k, m0)])
      with ((pre ++ (eid, m) :: rest) ++ [(k, m0)])
      by (now rewrite <- app_assoc).
    destruct (rebuild_snoc (pre ++ (eid, m) :: rest) k m0 c)
      as [[Hu0 _]|[_ Hl]].
    + exfalso. apply (Hfree k m0); [|exact Hu0].
      apply elem_of_app. right. left.
    + rewrite Hl. apply IH. intros k' m' Hin. apply (Hfree k').
      apply elem_of_app. now left.
Qed.

Lemma channel_index_last_wins_witness :
  _rebuild_channel_index
    ([("light.bar"%string, short_rgbw)]
       ++ ("light.desk"%string, mkMapping "light.desk" RGB 12 "" [13; 14; 15])
       :: [("light.lamp"%string, warm_lamp)]) !! 13
  = Some "light.desk"%string.
Proof.
  apply channel_index_last_wins.
  - right. left.
  - intros k m' Hin. apply list_elem_of_singleton in Hin as [= _ ->].
    intros [H|H]; [discriminate | inversion H].
Defined.

End ChannelIndex.

(** ** More on dictionaries in insertion order *)

Section DictMore.

Import Py.

Context {V : Type}.

Implicit Types (d : list (string * V)) (k : string) (v : V).

Lemma dict_get_none_keys k d : dict_get k d = None <-> k ∉ dict_keys d.
Proof.
  unfold dict_keys. induction d as [|[k' v'] rest IH]; simpl.
  - split; [intros _ H; inversion H | reflexivity].
  - rewrite not_elem_of_cons. destruct (String.eqb_spec k k') as [->|Hne].
    + split; [discriminate | intros [H _]; contradiction].
    + rewrite IH. tauto.
Qed.

Lemma dict_get_elem k v d : dict_get k d = Some v -> (k, v) ∈ d.
Proof.
  induction d as [|[k' v'] rest IH]; simpl; [discriminate|].
  destruct (String.eqb_spec k k') as [->|Hne].
  - intros [= ->]. left.
  - intros H. right. now apply IH.
Qed.

Lemma dict_elem_get k v d : NoDup (dict_keys d) -> (k, v) ∈ d -> dict_get k d = Some v.
Proof.
  unfold dict_keys. induction d as [|[k' v'] rest IH]; simpl; intros Hnd Hin.
  - inversion Hin.
  - apply NoDup_cons in Hnd as [Hk Hnd].
    apply elem_of_cons in Hin as [[= -> ->]|Hin].
    + now rewrite String.eqb_refl.
    + destruct (String.eqb_spec k k') as [->|Hne]; [|now apply IH].
      exfalso. apply Hk. apply list_elem_of_fmap. now exists (k', v).
Qed.

Lemma dict_set_absent k v d : dict_get k d = None -> dict_set k v d = d ++ [(k, v)].
Proof.
  induction d as [|[k' v'] rest IH]; simpl; [reflexivity|].
  destruct (String.eqb k k'); [discriminate|]. intros H. now rewrite IH.
Qed.

Lemma dict_set_keys_present k v d :
  is_Some (dict_get k d) -> dict_keys (dict_set k v d) = dict_keys d.
Proof.
  unfold dict_keys. induction d as [|[k' v'] rest IH]; cbn [dict_get dict_set].
  - now intros [x [=]].
  - destruct (String.eqb k k'); rewrite !fmap_cons; [reflexivity|].
    intros H. f_equal. now apply IH.
Qed.

Lemma dict_set_set k v v' d : dict_set k v (dict_set k v' d) = dict_set k v d.
Proof.
  induction d as [|[k0 v0] rest IH]; simpl.
  - now rewrite String.eqb_refl.
  - destruct (String.eqb k k0) eqn:E; simpl; rewrite E; [reflexivity|].
    now rewrite IH.
Qed.

Lemma dict_set_Forall (P : string * V -> Prop) k v d :
  Forall P d -> P (k, v) -> Forall P (dict_set k v d).
Proof.
  intros Hd Hk. induction d as [|[k' v'] rest IH]; simpl.
  - now constructor.
  - apply Forall_cons in Hd as [Hh Ht].
    destruct (String.eqb_spec k k') as [->|Hne]; constructor; auto.
Qed.

Lemma dict_set_NoDup k v d : NoDup (dict_keys d) -> NoDup (dict_keys (dict_set k v d)).
Proof.
  intros Hnd. destruct (dict_get k d) as [x|] eqn:E.
  - rewrite dict_set_keys_present by eauto. exact Hnd.
  - rewrite dict_set_absent by exact E. unfold dict_keys in *.
    rewrite fmap_app. apply NoDup_app. split; [exact Hnd|]. split.
    + intros x Hx Hin. apply list_elem_of_singleton in Hin. simpl in Hin. subst.
      now apply dict_get_none_keys in E.
    + apply NoDup_singleton.
Qed.

Lemma dict_get_del_eq k d : dict_get k (dict_del k d) = None.
Proof.
  unfold dict_del. induction d as [|[k' v'] rest IH]; simpl; [reflexivity|].
  destruct (String.eqb k k') eqn:E; simpl; [exact IH|]. now rewrite E.
Qed.

Lemma dict_get_del_ne k k' d : k <> k' -> dict_get k' (dict_del k d) = dict_get k' d.
Proof.
  intros Hne. unfold dict_del.
  induction d as [|[k0 v0] rest IH]; simpl; [reflexivity|].
  destruct (String.eqb_spec k k0) as [->|Hn0]; simpl.
  - apply not_eq_sym, String.eqb_neq in Hne. now rewrite Hne.
  - now rewrite IH.
Qed.

Lemma dict_del_absent k d : dict_get k d = None -> dict_del k d = d.
Proof.
  unfold dict_del. induction d as [|[k' v'] rest IH]; simpl; [reflexivity|].
  destruct (String.eqb k k'); [discriminate|]. simpl. intros H. now rewrite IH.
Qed.

Lemma dict_del_app k d1 d2 : dict_del k (d1 ++ d2) = dict_del k d1 ++ dict_del k d2.
Proof. unfold dict_del. apply List.filter_app. Qed.

Lemma dict_del_sublist k d : sublist (dict_del k d) d.
Proof.
  unfold dict_del. induction d as [|kv rest IH]; simpl; [constructor|].
  destruct (negb _); now constructor.
Qed.

Lemma dict_del_keys k x d : x ∈ dict_keys (dict_del k d) -> x ∈ dict_keys d.
Proof.
  unfold dict_keys, dict_del. induction d as [|[k' v'] rest IH]; simpl; [auto|].
  destruct (negb _); simpl; rewrite ?elem_of_cons; intros H.
  - destruct H as [->|H]; [now left | right; now apply IH].
  - right. now apply IH.
Qed.

Lemma dict_del_NoDup k d : NoDup (dict_keys d) -> NoDup (dict_keys (dict_del k d)).
Proof.
  induction d as [|[k' v'] rest IH]; intros Hnd; [exact Hnd|].
  unfold dict_keys in Hnd. rewrite fmap_cons in Hnd.
  apply NoDup_cons in Hnd as [Hk Hnd].
  unfold dict_del. cbn [List.filter fst].
  destruct (negb (String.eqb k k')); [|now apply IH].
  unfold dict_keys. rewrite fmap_cons. apply NoDup_cons. split; [|now apply IH].
  intros Hin. apply Hk. now apply (dict_del_keys k).
Qed.

Lemma dict_del_Forall (P : string * V -> Prop) k d :
  Forall P d -> Forall P (dict_del k d).
Proof.
  unfold dict_del. induction 1 as [|kv rest Hh Ht IH]; simpl; [constructor|].
  destruct (negb _); [now constructor | exact IH].
Qed.


End DictMore.

(** ** The mapping table under its operations *)

Section TableMore.

Import Py Mapper.

Implicit Types (ms : list (string * EntityMapping)) (e : EntityState).

#[local] Arguments assign_one : simpl never.





Lemma keyed_ids ms :
  keyed ms -> entity_id <$> dict_values ms = dict_keys ms.
Proof.
  intros [_ Hall]. unfold dict_values, dict_keys.
  induction ms as [|[k m] rest IH]; [reflexivity|].
  apply Forall_cons in Hall as [Hk Hrest]. rewrite !fmap_cons. simpl in *.
  f_equal; auto.
Qed.

Lemma keyed_set ms k m : keyed ms -> entity_id m = k -> keyed (dict_set k m ms).
Proof.
  intros [Hnd Hall] Hid. split.
  - now apply dict_set_NoDup.
  - now apply dict_set_Forall.
Qed.

Lemma keyed_del ms k : keyed ms -> keyed (dict_del k ms).
Proof.
  intros [Hnd Hall]. split.
  - now apply dict_del_NoDup.
  - now apply dict_del_Forall.
Qed.

Lemma keyed_assign_one acc e : keyed acc.1 -> keyed (assign_one acc e).1.
Proof.
  destruct acc as [ms c]. simpl. intros Hk.
  destruct (dict_mem (st_entity_id e) ms) eqn:E.
  - now rewrite assign_one_present.
  - rewrite assign_one_new by exact E. cbn [fst snd].
    apply keyed_set; [exact Hk|].
    pose proof (allocate_shape (st_entity_id e) (detect_entity_type e)
                  (default (st_entity_id e) (st_friendly_name e)) c) as Hsh.
    destruct (allocate _ _ _ _) as [m c']. now destruct Hsh as (Hid & _).
Qed.

Lemma keyed_assign_loop entities : forall acc,
  keyed acc.1 -> keyed (foldl assign_one acc entities).1.
Proof.
  induction entities as [|e rest IH]; intros acc H; simpl; [exact H|].
  apply IH. now apply keyed_assign_one.
Qed.

Lemma keyed_update self eid channel new_type :
  keyed (mappings self) ->
  keyed (mappings (update_mapping self eid channel new_type)).
Proof.
  intros Hk. unfold update_mapping.
  destruct (dict_get eid (mappings self)) as [m|] eqn:E; simpl.
  - apply keyed_set; [exact Hk|].
    apply dict_get_elem in E. destruct Hk as [_ Hall].
    rewrite Forall_forall in Hall. specialize (Hall _ E). simpl in Hall.
    now destruct new_type.
  - now apply keyed_set.
Qed.

Lemma keyed_remove self eid :
  keyed (mappings self) -> keyed (mappings (remove_mapping self eid)).
Proof.
  intros Hk. unfold remove_mapping.
  destruct (dict_mem eid (mappings self)); [|exact Hk].
  simpl. now apply keyed_del.
Qed.

(** X14. The table keeps its shape under every operation: if every device
    id is a key once and every mapping is stored under its own id, the same
    holds after [auto_assign_channels], [update_mapping] and
    [remove_mapping]. In such a table no two mappings are for the same
    device. *)
Theorem keyed_table_preserved self entities start eid channel new_type :
  keyed (mappings self) ->
  keyed (mappings (auto_assign_channels self entities start)) /\
  keyed (mappings (update_mapping self eid channel new_type)) /\
  keyed (mappings (remove_mapping self eid)) /\
  NoDup (entity_id <$> get_all_mappings self).
Proof.
  intros Hk. split; [|split; [|split]].
  - simpl. unfold assign_loop.
    now apply (keyed_assign_loop entities (mappings self, start)).
  - now apply keyed_update.
  - now apply keyed_remove.
  - unfold get_all_mappings. rewrite keyed_ids by exact Hk. now destruct Hk.
Qed.

Lemma keyed_table_preserved_witness :
  keyed (mappings (auto_assign_channels (new_mapper None)
                     [rgbw_light; wall_switch] 1)) /\
  keyed (mappings (update_mapping (new_mapper None) "light.desk" 10 (Some RGB))).
Proof.
  assert (Hk : keyed (mappings (new_mapper None)))
    by (split; [apply NoDup_nil_2 | constructor]).
  destruct (keyed_table_preserved (new_mapper None) [rgbw_light; wall_switch] 1
              "light.desk" 10 (Some RGB) Hk) as (H1 & H2 & _).
  split; [exact H1 | exact H2].
Defined.

Lemma channels_after_required t channel :
  channels_after t channel
  = if bool_decide (aux_required t = 0) then None
    else Some (seqZ (channel + 1) (aux_required t)).
Proof.
  destruct t; simpl; try reflexivity; unfold seqZ; simpl;
    do 1 f_equal; repeat (apply (f_equal2 cons); [lia|]); reflexivity.
Qed.

(** X15. [update_mapping] on a device of the table moves its primary
    channel and keeps its id and name; the type is the supplied one, or the
    old one when none is supplied. If the resulting type requires auxiliary
    channels they are the channels right after the new primary; if a type
    that requires none is supplied they are cleared; with no type supplied
    and an old type that requires none they stay as they were. No other
    device changes, and the order of the table is kept. *)
Theorem update_mapping_existing_device self eid channel new_type m :
  dict_get eid (mappings self) = Some m ->
  exists m',
    dict_get eid (mappings (update_mapping self eid channel new_type)) = Some m' /\
    entity_id m' = entity_id m /\
    name m' = name m /\
    dmx_channel m' = channel /\
    entity_type m' = default (entity_type m) new_type /\
    (aux_required (entity_type m') <> 0 ->
     rgb_channels m' = seqZ (channel + 1) (aux_required (entity_type m'))) /\
    (aux_required (entity_type m') = 0 ->
     rgb_channels m'
     = match new_type with Some _ => [] | None => rgb_channels m end) /\
    (forall k, k <> eid ->
       dict_get k (mappings (update_mapping self eid channel new_type))
       = dict_get k (mappings self)) /\
    dict_keys (mappings (update_mapping self eid channel new_type))
    = dict_keys (mappings self).
Proof.
  intros Hget. unfold update_mapping. rewrite Hget. cbn [mappings with_mappings].
  eexists. split; [apply dict_get_set_eq|].
  split; [now destruct new_type|]. split; [now destruct new_type|].
  split; [now destruct new_type|]. split; [now destruct new_type|].
  split; [|split; [|split]].
  - destruct new_type as [t|]; cbn [entity_type rgb_channels default];
      rewrite channels_after_required; intros Hreq;
      rewrite bool_decide_false by exact Hreq; reflexivity.
  - destruct new_type as [t|]; cbn [entity_type rgb_channels default];
      rewrite channels_after_required; intros Hreq;
      rewrite bool_decide_true by exact Hreq; reflexivity.
  - intros k Hne. apply dict_get_set_ne. now apply not_eq_sym.
  - apply dict_set_keys_present. rewrite Hget. eauto.
Qed.

Lemma update_mapping_existing_device_witness :
  exists m',
    dict_get "light.bar"
      (mappings (update_mapping
                   (with_mappings [("light.bar"%string, short_rgbw)])
                   "light.bar" 40 None)) = Some m' /\
    dmx_channel m' = 40 /\ rgb_channels m' = seqZ 41 4.
Proof.
  destruct (update_mapping_existing_device
              (with_mappings [("light.bar"%string, short_rgbw)])
              "light.bar" 40 None short_rgbw eq_refl)
    as (m' & Hget & _ & _ & Hch & Hty & Haux & _).
  exists m'. split; [exact Hget|]. split; [exact Hch|].
  rewrite Hty in Haux. exact (Haux ltac:(discriminate)).
Defined.

(** X16. [update_mapping] is idempotent on a device of the table: the same
    call a second time changes nothing. *)
Theorem update_mapping_idempotent self eid channel new_type m :
  dict_get eid (mappings self) = Some m ->
  update_mapping (update_mapping self eid channel new_type) eid channel new_type
  = update_mapping self eid channel new_type.
Proof.
  intros Hget.
  assert (Hu : exists u,
             update_mapping self eid channel new_type
             = with_mappings (dict_set eid u (mappings self)) /\
             forall ms,
               update_mapping (with_mappings (dict_set eid u ms)) eid channel new_type
               = with_mappings (dict_set eid u (dict_set eid u ms))).
  { unfold update_mapping at 1. rewrite Hget. eexists. split; [reflexivity|].
    intros ms. unfold update_mapping. cbn [mappings with_mappings].
    rewrite dict_get_set_eq.
    destruct new_type as [t|];
      cbn [entity_id entity_type name rgb_channels default]; [reflexivity|].
    destruct (channels_after (entity_type m) channel); reflexivity. }
  destruct Hu as (u & -> & Hagain).
  rewrite Hagain, dict_set_set. reflexivity.
Qed.

Lemma update_mapping_idempotent_witness :
  update_mapping
    (update_mapping (with_mappings [("light.bar"%string, short_rgbw)])
       "light.bar" 40 (Some RGBWW))
    "light.bar" 40 (Some RGBWW)
  = update_mapping (with_mappings [("light.bar"%string, short_rgbw)])
      "light.bar" 40 (Some RGBWW).
Proof.
  exact (update_mapping_idempotent
           (with_mappings [("light.bar"%string, short_rgbw)])
           "light.bar" 40 (Some RGBWW) short_rgbw eq_refl).
Defined.

(** X17. [remove_mapping] deletes the device and nothing else: the device
    is no longer in the table, every other device keeps its mapping, and the
    remaining entries keep their order. Removing a device that is not in the
    table leaves the mapper as it is, and removing a device right after
    [update_mapping] created it gives the table back. *)
Theorem remove_mapping_removes self eid :
  dict_get eid (mappings (remove_mapping self eid)) = None /\
  (forall k, k <> eid ->
     dict_get k (mappings (remove_mapping self eid)) = dict_get k (mappings self)) /\
  sublist (mappings (remove_mapping self eid)) (mappings self) /\
  (dict_get eid (mappings self) = None -> remove_mapping self eid = self) /\
  (forall channel new_type,
     dict_get eid (mappings self) = None ->
     mappings (remove_mapping (update_mapping self eid channel new_type) eid)
     = mappings self).
Proof.
  unfold remove_mapping.
  split; [|split; [|split; [|split]]].
  - destruct (dict_mem eid (mappings self)) eqn:E.
    + apply dict_get_del_eq.
    + now apply dict_mem_false.
  - intros k Hne. destruct (dict_mem eid (mappings self)); [|reflexivity].
    apply dict_get_del_ne. now apply not_eq_sym.
  - destruct (dict_mem eid (mappings self)); [apply dict_del_sublist|].
    reflexivity.
  - intros H. apply dict_mem_false in H. now rewrite H.
  - intros channel new_type H. unfold update_mapping. rewrite H.
    cbn [mappings with_mappings].
    assert (Hm : dict_mem eid
                   (dict_set eid
                      (mkMapping eid (default UNKNOWN new_type) channel "" [])
                      (mappings self)) = true).
    { apply dict_mem_true. rewrite dict_get_set_eq. eauto. }
    rewrite Hm. cbn [mappings with_mappings].
    rewrite dict_set_absent by exact H. rewrite dict_del_app.
    rewrite dict_del_absent by exact H.
    unfold dict_del. simpl. rewrite String.eqb_refl. simpl. apply app_nil_r.
Qed.

End TableMore.

(** ** More on the command translator *)

Section TranslatorMore.

Import Py Mapper.

Implicit Types (m : EntityMapping) (dmx_data : gmap Z Z) (c : Command).

#[local] Arguments command_for : simpl never.

Lemma command_step_ids dmx_data l :
  forall commands processed commands' processed',
    NoDup (cmd_entity_id <$> commands) ->
    (forall c, c ∈ commands -> cmd_entity_id c ∈ processed) ->
    foldl (command_step dmx_data) (Some (commands, processed)) l
    = Some (commands', processed') ->
    NoDup (cmd_entity_id <$> commands').
Proof.
  induction l as [|x rest IH]; intros cs ps cs' ps' Hnd Hsub Hrun.
  - simpl in Hrun. now injection Hrun as <- <-.
  - simpl in Hrun.
    destruct (decide (entity_id x ∈ ps)) as [Hin|Hout].
    { rewrite bool_decide_true in Hrun by exact Hin. eapply IH; eauto. }
    rewrite bool_decide_false in Hrun by exact Hout.
    destruct (dmx_data !! dmx_channel x) as [v|]; [|eapply IH; eauto].
    destruct (command_for x v dmx_data) as [| |c0] eqn:Ec.
    + now rewrite command_step_none in Hrun.
    + eapply (IH cs); [exact Hnd| |exact Hrun].
      intros c Hc. apply elem_of_union. right. now apply Hsub.
    + apply command_for_entity_id in Ec.
      eapply (IH (cs ++ [c0])); [| |exact Hrun].
      * rewrite fmap_app. apply NoDup_app. split; [exact Hnd|]. split.
        -- intros i Hi Hi'. simpl in Hi'. apply list_elem_of_singleton in Hi'.
           subst i. apply list_elem_of_fmap in Hi as (c & Hc & Hcin).
           apply Hout. rewrite <- Ec, Hc. now apply Hsub.
        -- apply NoDup_singleton.
      * intros c Hc. apply elem_of_app in Hc as [Hc|Hc].
        -- apply elem_of_union. right. now apply Hsub.
        -- apply list_elem_of_singleton in Hc as ->.
           apply elem_of_union. left. apply elem_of_singleton. exact Ec.
Qed.

(** X18. A pass emits at most one command per device, whatever the table
    holds: no two commands of the list have the same entity id. *)
Theorem one_command_per_device self dmx_data :
  match get_entity_commands self dmx_data with
  | Some commands => NoDup (cmd_entity_id <$> commands)
  | None => True
  end.
Proof.
  unfold get_entity_commands.
  destruct (foldl _ _ _) as [[cs ps]|] eqn:E; simpl; [|exact I].
  eapply (command_step_ids dmx_data _ [] ∅ cs ps); [constructor| |exact E].
  intros c Hc. inversion Hc.
Qed.

Lemma command_step_emit_all dmx_data l :
  forall commands processed,
    NoDup (entity_id <$> l) ->
    (forall x, x ∈ l -> entity_id x ∉ processed) ->
    fst <$> foldl (command_step dmx_data) (Some (commands, processed)) l
    = (fun cs => commands ++ cs) <$> emit_all dmx_data l.
Proof.
  induction l as [|x rest IH]; intros cs ps Hnd Hfresh.
  - simpl. now rewrite app_nil_r.
  - rewrite fmap_cons in Hnd. apply NoDup_cons in Hnd as [Hx Hnd].
    assert (Hrest : forall y, y ∈ rest -> entity_id y ∉ {[entity_id x]} ∪ ps).
    { intros y Hy Hin. apply elem_of_union in Hin as [Hin|Hin].
      - apply elem_of_singleton in Hin. apply Hx. rewrite <- Hin.
        apply list_elem_of_fmap. now exists y.
      - revert Hin. apply Hfresh. now right. }
    assert (Hrest' : forall y, y ∈ rest -> entity_id y ∉ ps)
      by (intros y Hy; apply Hfresh; now right).
    simpl. rewrite bool_decide_false by (apply Hfresh; left).
    destruct (dmx_data !! dmx_channel x) as [v|]; [|now apply IH].
    destruct (command_for x v dmx_data) as [| |c0].
    + now rewrite command_step_none.
    + now apply IH.
    + rewrite IH by assumption.
      destruct (emit_all dmx_data rest) as [r|]; simpl; [|reflexivity].
      now rewrite <- app_assoc.
Qed.

(** X19. In a table with one mapping per device the set of processed
    devices never skips anything: the commands of a pass are the commands of
    the mappings whose primary channel is in the frame, one after the other
    in table order, and the pass raises exactly when one of them raises. *)
Theorem commands_in_table_order self dmx_data :
  NoDup (entity_id <$> get_all_mappings self) ->
  get_entity_commands self dmx_data = emit_all dmx_data (get_all_mappings self).
Proof.
  intros Hnd. unfold get_entity_commands, get_all_mappings in *.
  rewrite command_step_emit_all; [|exact Hnd|].
  - destruct (emit_all _ _); reflexivity.
  - intros x _. apply not_elem_of_empty.
Qed.

Lemma commands_in_table_order_witness :
  get_entity_commands
    (with_mappings [("light.bar"%string, short_rgbw);
                    ("light.lamp"%string, warm_lamp)]) scene
  = Some [mkCommand "light.bar" turn_on (Some 128) (Some [255; 0; 64])
            None None None;
          mkCommand "light.lamp" turn_on (Some 255) None None None (Some 6500)].
Proof.
  rewrite commands_in_table_order.
  - vm_compute. reflexivity.
  - eapply (bool_decide_unpack _). vm_compute. exact I.
Defined.

(** X20. Switch and dimmer decoding, in a table with one mapping per
    device and on a frame of 8-bit values that holds the primary channel: a
    switch is turned on when the value is above 125 and off otherwise (125
    is off, 126 is on), with no payload; a dimmer is turned off at 0 and
    otherwise turned on with the value itself as brightness. *)
Theorem switch_dimmer_command self dmx_data m v :
  NoDup (entity_id <$> get_all_mappings self) ->
  m ∈ get_all_mappings self ->
  byte_frame dmx_data ->
  dmx_data !! dmx_channel m = Some v ->
  exists commands,
    get_entity_commands self dmx_data = Some commands /\
    (entity_type m = SWITCH ->
     mkCommand (entity_id m) (if 125 <? v then turn_on else turn_off)
       None None None None None ∈ commands) /\
    (entity_type m = DIMMER ->
     (if 0 <? v
      then mkCommand (entity_id m) turn_on (Some v) None None None None
      else off_command (entity_id m)) ∈ commands).
Proof.
  intros Hnd Hm Hb Hv.
  destruct (get_entity_commands_total self dmx_data Hb) as [commands Hrun].
  exists commands. split; [exact Hrun|]. split; intros Hty.
  - apply (get_entity_commands_emits self dmx_data commands m v); auto.
    unfold command_for. rewrite Hty. reflexivity.
  - apply (get_entity_commands_emits self dmx_data commands m v); auto.
    unfold command_for, dmx_to_ha_brightness. rewrite Hty.
    destruct (0 <? v); reflexivity.
Qed.

Lemma switch_dimmer_command_witness :
  exists commands,
    get_entity_commands
      (auto_assign_channels (new_mapper None) [wall_switch] 1)
      (ArtNet.channel_dict [126]) = Some commands /\
    mkCommand "switch.wall" turn_on None None None None None ∈ commands.
Proof.
  assert (Hnd : NoDup (entity_id <$> get_all_mappings
                         (auto_assign_channels (new_mapper None) [wall_switch] 1)))
    by (eapply (bool_decide_unpack _); vm_compute; exact I).
  assert (Hm : mkMapping "switch.wall" SWITCH 1 "switch.wall" []
               ∈ get_all_mappings
                   (auto_assign_channels (new_mapper None) [wall_switch] 1))
    by (apply list_elem_of_singleton; reflexivity).
  assert (Hb : byte_frame (ArtNet.channel_dict [126]))
    by (unfold byte_frame; eapply (bool_decide_unpack _); vm_compute; exact I).
  destruct (switch_dimmer_command _ _ _ 126 Hnd Hm Hb eq_refl)
    as (commands & Hrun & Hsw & _).
  exists commands. split; [exact Hrun | exact (Hsw eq_refl)].
Defined.

(** X21. Colour decoding, in a table with one mapping per device and on a
    frame of 8-bit values that holds the primary channel. A colour mapping
    with all the auxiliary channels of its type is turned off when the
    primary value is 0, whatever the colour channels hold, and otherwise
    turned on with the primary value as brightness and one colour payload:
    3 values for RGB, 4 for RGBW, 5 for RGBWW, read from the auxiliary
    channels in order, a channel missing from the frame counting as 0. *)
Theorem colour_command self dmx_data m v :
  NoDup (entity_id <$> get_all_mappings self) ->
  m ∈ get_all_mappings self ->
  byte_frame dmx_data ->
  dmx_data !! dmx_channel m = Some v ->
  aux_required (entity_type m) <> 0 ->
  aux_required (entity_type m) <= len (rgb_channels m) ->
  exists commands,
    get_entity_commands self dmx_data = Some commands /\
    (if 0 <? v
     then
       mkCommand (entity_id m) turn_on (Some v)
         (if bool_decide (entity_type m = RGB)
          then Some (get0 dmx_data <$> take 3 (rgb_channels m)) else None)
         (if bool_decide (entity_type m = RGBW)
          then Some (get0 dmx_data <$> take 4 (rgb_channels m)) else None)
         (if bool_decide (entity_type m = RGBWW)
          then Some (get0 dmx_data <$> take 5 (rgb_channels m)) else None)
         None
     else off_command (entity_id m)) ∈ commands.
Proof.
  intros Hnd Hm Hb Hv Hcol Hlen.
  destruct (get_entity_commands_total self dmx_data Hb) as [commands Hrun].
  exists commands. split; [exact Hrun|].
  apply (get_entity_commands_emits self dmx_data commands m v); auto.
  assert (G3 : (3 <=? len (rgb_channels m)) = true)
    by (apply Z.leb_le; destruct (entity_type m); simpl in *; lia).
  unfold command_for, dmx_to_ha_brightness. rewrite G3.
  destruct (0 <? v); [|now destruct (entity_type m)].
  destruct (entity_type m) eqn:Ety; simpl in Hcol, Hlen; try lia.
  - destruct (rgb_channels m) as [|a0 [|a1 [|a2 rest]]];
      unfold len in Hlen; simpl in Hlen; try lia. reflexivity.
  - replace (4 <=? len (rgb_channels m)) with true
      by (symmetry; apply Z.leb_le; exact Hlen).
    destruct (rgb_channels m) as [|a0 [|a1 [|a2 [|a3 rest]]]];
      unfold len in Hlen; simpl in Hlen; try lia. reflexivity.
  - replace (5 <=? len (rgb_channels m)) with true
      by (symmetry; apply Z.leb_le; exact Hlen).
    destruct (rgb_channels m) as [|a0 [|a1 [|a2 [|a3 [|a4 rest]]]]];
      unfold len in Hlen; simpl in Hlen; try lia. reflexivity.
Qed.

Lemma colour_command_witness :
  exists commands,
    get_entity_commands
      (with_mappings
         [("light.desk"%string, mkMapping "light.desk" RGB 10 "" [11; 12; 13])])
      scene = Some commands /\
    mkCommand "light.desk" turn_on (Some 128) (Some [255; 0; 64]) None None None
      ∈ commands.
Proof.
  assert (Hnd : NoDup (entity_id <$> get_all_mappings
                         (with_mappings
                            [("light.desk"%string,
                              mkMapping "light.desk" RGB 10 "" [11; 12; 13])])))
    by (apply NoDup_singleton).
  assert (Hm : mkMapping "light.desk" RGB 10 "" [11; 12; 13]
               ∈ get_all_mappings
                   (with_mappings
                      [("light.desk"%string,
                        mkMapping "light.desk" RGB 10 "" [11; 12; 13])]))
    by (apply list_elem_of_singleton; reflexivity).
  assert (Hb : byte_frame scene)
    by (unfold byte_frame; eapply (bool_decide_unpack _); vm_compute; exact I).
  destruct (colour_command _ scene _ 128 Hnd Hm Hb eq_refl
              ltac:(discriminate) ltac:(vm_compute; discriminate))
    as (commands & Hrun & Hc).
  exists commands. split; [exact Hrun | exact Hc].
Defined.

Lemma command_for_payload m v dmx_data c :
  command_for m v dmx_data = Emit c ->
  (action c = turn_off ->
   brightness c = None /\ rgb_color c = None /\ rgbw_color c = None /\
   rgbww_color c = None /\ kelvin c = None) /\
  (forall b, brightness c = Some b -> b = v /\ 0 < v /\ action c = turn_on) /\
  (is_Some (rgb_color c) \/ is_Some (rgbw_color c) \/ is_Some (rgbww_color c)
   \/ is_Some (kelvin c) -> is_Some (brightness c)) /\
  (is_Some (rgb_color c) -> rgbw_color c = None /\ rgbww_color c = None /\ kelvin c = None) /\
  (is_Some (rgbw_color c) -> rgb_color c = None /\ rgbww_color c = None /\ kelvin c = None) /\
  (is_Some (rgbww_color c) -> rgb_color c = None /\ rgbw_color c = None /\ kelvin c = None) /\
  (is_Some (kelvin c) -> entity_type m = COLOR_TEMP).
Proof.
  unfold command_for, dmx_to_ha_brightness, off_command. intros H.
  destruct (entity_type m) eqn:Ety; repeat case_match; try discriminate;
    injection H as <-; cbn [action brightness rgb_color rgbw_color rgbww_color kelvin];
    (split; [|split; [|split; [|split; [|split; [|split]]]]]).
  all: try (intros _; repeat split; reflexivity).
  all: try (intros [=]; fail).
  all: try (intros b [=]; fail).
  all: try (intros [x [=]]; fail).
  all: try (intros _; eauto; fail).
  all: try (intros b [= <-]; repeat split;
            match goal with H : (0 <? _) = true |- _ => apply Z.ltb_lt in H; exact H end).
  all: try (intros [[x [=]]|[[x [=]]|[[x [=]]|[x [=]]]]]; fail).
Qed.

(** X22. What a command never carries, for every command of every pass: a
    deactivate command has no brightness, colour or colour temperature; a
    brightness is only sent with an activate command and is the positive
    value of the primary channel; a colour or a colour temperature is only
    sent together with a brightness; and a command has at most one of the
    RGB, RGBW, RGBWW and colour-temperature payloads. *)
Theorem command_payload_discipline self dmx_data :
  match get_entity_commands self dmx_data with
  | None => True
  | Some commands =>
      forall c, c ∈ commands ->
        (action c = turn_off ->
         brightness c = None /\ rgb_color c = None /\ rgbw_color c = None /\
         rgbww_color c = None /\ kelvin c = None) /\
        (forall b, brightness c = Some b -> 0 < b /\ action c = turn_on) /\
        (is_Some (rgb_color c) \/ is_Some (rgbw_color c)
         \/ is_Some (rgbww_color c) \/ is_Some (kelvin c) ->
         is_Some (brightness c)) /\
        (is_Some (rgb_color c) ->
         rgbw_color c = None /\ rgbww_color c = None /\ kelvin c = None) /\
        (is_Some (rgbw_color c) ->
         rgb_color c = None /\ rgbww_color c = None /\ kelvin c = None) /\
        (is_Some (rgbww_color c) ->
         rgb_color c = None /\ rgbw_color c = None /\ kelvin c = None)
  end.
Proof.
  destruct (get_entity_commands self dmx_data) as [commands|] eqn:Hrun;
    [|exact I].
  intros c Hc.
  destruct (get_entity_commands_origin self dmx_data commands c Hrun Hc)
    as (m & v & _ & _ & Hemit).
  destruct (command_for_payload m v dmx_data c Hemit)
    as (H1 & H2 & H3 & H4 & H5 & H6 & _).
  repeat split; auto; try (now apply H4); try (now apply H5);
    try (now apply H6); try (now apply H1).
  - destruct (H2 b H) as (-> & Hpos & _). exact Hpos.
  - now destruct (H2 b H) as (_ & _ & Hon).
Qed.

Lemma kelvin_truncated_range v :
  1 <= v <= 255 -> 2017 <= kelvin_truncated v <= 6500.
Proof.
  intros Hv.
  assert (Hall : forallb
                   (fun x => (2017 <=? kelvin_truncated x)
                             && (kelvin_truncated x <=? 6500))
                   (seqZ 1 255) = true) by (vm_compute; reflexivity).
  rewrite forallb_forall in Hall. specialize (Hall v).
  rewrite andb_true_iff, Z.leb_le, Z.leb_le in Hall. apply Hall.
  apply list_elem_of_In, elem_of_seqZ. lia.
Qed.

Lemma get0_byte dmx_data channel :
  byte_frame dmx_data -> 0 <= get0 dmx_data channel <= 255.
Proof.
  intros Hb. unfold get0.
  destruct (dmx_data !! channel) as [x|] eqn:E; simpl; [|lia].
  exact (Hb _ _ E).
Qed.

Lemma command_for_ranges m v dmx_data c :
  byte_frame dmx_data -> 0 <= v <= 255 ->
  command_for m v dmx_data = Emit c ->
  (forall b, brightness c = Some b -> 1 <= b <= 255) /\
  (forall l, rgb_color c = Some l ->
     length l = 3%nat /\ Forall (fun x => 0 <= x <= 255) l) /\
  (forall l, rgbw_color c = Some l ->
     length l = 4%nat /\ Forall (fun x => 0 <= x <= 255) l) /\
  (forall l, rgbww_color c = Some l ->
     length l = 5%nat /\ Forall (fun x => 0 <= x <= 255) l) /\
  (forall k, kelvin c = Some k -> 2017 <= k <= 6500).
Proof.
  intros Hb Hv. unfold command_for, dmx_to_ha_brightness, off_command.
  intros H.
  destruct (entity_type m) eqn:Ety; repeat case_match; try discriminate;
    injection H as <-;
    cbn [action brightness rgb_color rgbw_color rgbww_color kelvin];
    (split; [|split; [|split; [|split]]]).
  all: try (intros x [=]; fail).
  all: try (intros b [= <-];
            match goal with
            | H : (0 <? _) = true |- _ <= _ <= 255 =>
                apply Z.ltb_lt in H; lia
            end).
  all: try (intros l [= <-]; split;
            [reflexivity | repeat constructor; apply get0_byte; assumption]).
  all: intros k [= <-];
       match goal with
       | H : kelvin_of _ = Some _, G : (0 <? _) = true |- _ =>
           rewrite kelvin_of_byte in H by exact Hv; injection H as <-;
           apply Z.ltb_lt in G; apply kelvin_truncated_range; lia
       end.
Qed.

(** X23. On a frame of 8-bit values every command stays within the ranges
    of the platform: a brightness is between 1 and 255, an RGB, RGBW or
    RGBWW payload has 3, 4 or 5 components, each between 0 and 255, and a
    colour temperature is between 2017 and 6500 kelvin. *)
Theorem command_value_ranges self dmx_data :
  byte_frame dmx_data ->
  exists commands,
    get_entity_commands self dmx_data = Some commands /\
    forall c, c ∈ commands ->
      (forall b, brightness c = Some b -> 1 <= b <= 255) /\
      (forall l, rgb_color c = Some l ->
         length l = 3%nat /\ Forall (fun x => 0 <= x <= 255) l) /\
      (forall l, rgbw_color c = Some l ->
         length l = 4%nat /\ Forall (fun x => 0 <= x <= 255) l) /\
      (forall l, rgbww_color c = Some l ->
         length l = 5%nat /\ Forall (fun x => 0 <= x <= 255) l) /\
      (forall k, kelvin c = Some k -> 2017 <= k <= 6500).
Proof.
  intros Hb.
  destruct (get_entity_commands_total self dmx_data Hb) as [commands Hrun].
  exists commands. split; [exact Hrun|]. intros c Hc.
  destruct (get_entity_commands_origin self dmx_data commands c Hrun Hc)
    as (m & v & _ & Hv & Hemit).
  exact (command_for_ranges m v dmx_data c Hb (Hb _ _ Hv) Hemit).
Qed.

Lemma command_value_ranges_witness :
  exists commands,
    get_entity_commands
      (with_mappings [("light.bar"%string, short_rgbw);
                      ("light.lamp"%string, warm_lamp)]) scene
    = Some commands /\
    forall c, c ∈ commands -> forall k, kelvin c = Some k -> 2017 <= k <= 6500.
Proof.
  assert (Hb : byte_frame scene)
    by (unfold byte_frame; eapply (bool_decide_unpack _); vm_compute; exact I).
  destruct (command_value_ranges
              (with_mappings [("light.bar"%string, short_rgbw);
                              ("light.lamp"%string, warm_lamp)]) scene Hb)
    as (commands & Hrun & Hall).
  exists commands. split; [exact Hrun|].
  intros c Hc. exact (proj2 (proj2 (proj2 (proj2 (Hall c Hc))))).
Defined.

(** X24. Every command of a pass is for a device of the table whose
    primary channel is in the frame and whose type is known: a device all
    of whose mappings have a primary channel outside the frame, or the type
    Unknown, gets no command, and neither does a device that is not in the
    table. *)
Theorem no_command_without_primary self dmx_data eid :
  (forall m, m ∈ get_all_mappings self -> entity_id m = eid ->
     dmx_data !! dmx_channel m = None \/ entity_type m = UNKNOWN) ->
  forall commands c,
    get_entity_commands self dmx_data = Some commands ->
    c ∈ commands -> cmd_entity_id c <> eid.
Proof.
  intros Hskip commands c Hrun Hc Heid.
  destruct (get_entity_commands_origin self dmx_data commands c Hrun Hc)
    as (m & v & Hm & Hv & Hemit).
  pose proof (command_for_entity_id m v dmx_data c Hemit) as Hid.
  destruct (Hskip m Hm) as [Hnone|Hunk]; [congruence | congruence |].
  unfold command_for in Hemit. rewrite Hunk in Hemit. discriminate.
Qed.

Lemma no_command_without_primary_witness :
  exists commands,
    get_entity_commands
      (with_mappings [("light.lamp"%string, warm_lamp);
                      ("switch.wall"%string,
                       mkMapping "switch.wall" SWITCH 1 "switch.wall" [])])
      (ArtNet.channel_dict [200; 6; 7]) = Some commands /\
    commands <> [] /\
    Forall (fun c => cmd_entity_id c <> "light.lamp"%string) commands.
Proof.
  eexists. split; [vm_compute; reflexivity|]. split; [discriminate|].
  apply Forall_forall. intros c Hc.
  apply (no_command_without_primary
           (with_mappings [("light.lamp"%string, warm_lamp);
                           ("switch.wall"%string,
                            mkMapping "switch.wall" SWITCH 1 "switch.wall" [])])
           (ArtNet.channel_dict [200; 6; 7]) "light.lamp"
           ltac:(intros m Hm Hid;
                 apply elem_of_cons in Hm as [->|Hm];
                 [left; vm_compute; reflexivity
                 |apply list_elem_of_singleton in Hm as ->; discriminate Hid])
           _ c ltac:(vm_compute; reflexivity)).
  exact Hc.
Defined.

Lemma byte_frame_channel_dict l :
  Forall (fun v => 0 <= v <= 255) l -> byte_frame (ArtNet.channel_dict l).
Proof.
  intros Hall ch v Hget.
  apply channel_dict_key in Hget as (i & _ & Hget).
  rewrite Forall_lookup in Hall. exact (Hall _ _ Hget).
Qed.

(** X25. The receiver and the translator fit together: the dictionary of
    any frame the receiver can store holds only 8-bit values and holds every
    channel from 1 to 512, so a translation pass on it never raises, for any
    mapping table. *)
Theorem receiver_frames_translate u registered datagrams mapper :
  let frame :=
    ArtNet.channel_dict
      (ArtNet.dmx_data
         (ArtNet.receive_all
            (if registered : bool then ArtNet.set_callback (ArtNet.init u)
             else ArtNet.init u)
            datagrams)) in
  byte_frame frame /\
  (forall channel, 1 <= channel <= 512 -> is_Some (frame !! channel)) /\
  is_Some (get_entity_commands mapper frame).
Proof.
  intros frame.
  assert (Hlen : (512 <= length
                           (ArtNet.dmx_data
                              (ArtNet.receive_all
                                 (if registered
                                  then ArtNet.set_callback (ArtNet.init u)
                                  else ArtNet.init u) datagrams)))%nat).
  { apply receive_all_length. destruct registered; vm_compute; lia. }
  assert (Hb : byte_frame frame).
  { apply byte_frame_channel_dict, receive_all_bytes.
    destruct registered;
      change (Forall (fun v => 0 <= v <= 255) (replicate 512 0));
      apply Forall_replicate; lia. }
  split; [exact Hb|]. split; [|now apply get_entity_commands_total].
  intros channel Hch. unfold frame.
  replace channel with (Z.of_nat (Z.to_nat (channel - 1)) + 1) by lia.
  rewrite channel_dict_get. apply lookup_lt_is_Some. lia.
Qed.

End TranslatorMore.

(** ** More on the dispatch pass and the handoff *)

Section BridgeMore.

Import Mapper Bridge.

Implicit Types (self : BridgeController) (t : Q) (c : Command).





Lemma throttled_same_time self t eid :
  last_command_time self !! eid = Some t -> throttled self t eid = true.
Proof.
  intros H. unfold throttled, last_time_of, min_command_interval.
  rewrite H. simpl. apply Qlt_bool_true. lra.
Qed.

(** X27. In one pass no device is sent two commands, even if the list names
    it twice: after a command is sent its device is throttled for the rest
    of the pass. What a pass adds to the log are commands of the list whose
    call returned, each logged with the clock reading of the pass, and no
    two of them for the same device. *)
Theorem one_send_per_device_per_pass ha t self commands :
  exists added,
    sent (dispatch_all ha t self commands) = sent self ++ added /\
    NoDup ((fun tc => cmd_entity_id tc.2) <$> added) /\
    Forall (fun tc => tc.1 = t /\ tc.2 ∈ commands /\ ha tc.2 = Returned) added.
Proof.
  assert (Hgen : exists added,
    sent (dispatch_all ha t self commands) = sent self ++ added /\
    NoDup ((fun tc => cmd_entity_id tc.2) <$> added) /\
    Forall (fun tc => tc.1 = t /\ tc.2 ∈ commands /\ ha tc.2 = Returned) added /\
    Forall (fun tc =>
              last_command_time (dispatch_all ha t self commands)
                !! cmd_entity_id tc.2 = Some t) added).
  { induction commands as [|c rest IH] using rev_ind.
    - exists []. simpl. rewrite app_nil_r. repeat split; constructor.
    - destruct IH as (added & Hs & Hnd & Hall & Htimes).
      unfold dispatch_all in *. rewrite foldl_snoc.
      set (cur := foldl (dispatch ha t) self rest) in *.
      assert (Hall' : Forall (fun tc => tc.1 = t /\ tc.2 ∈ rest ++ [c]
                                        /\ ha tc.2 = Returned) added).
      { eapply Forall_impl; [exact Hall|]. intros tc (H1 & H2 & H3).
        repeat split; auto. apply elem_of_app. now left. }
      unfold dispatch.
      destruct (throttled cur t (cmd_entity_id c)) eqn:Eth;
        [now exists added|].
      destruct (ha c) eqn:Eha; [|now exists added].
      exists (added ++ [(t, c)]). simpl.
      split; [now rewrite Hs, app_assoc|]. split; [|split].
      + rewrite fmap_app. apply NoDup_app. split; [exact Hnd|]. split.
        * intros eid Hin Hin'. simpl in Hin'.
          apply list_elem_of_singleton in Hin'. subst eid.
          apply list_elem_of_fmap in Hin as (tc & Heq & Htc).
          rewrite Forall_forall in Htimes. specialize (Htimes tc Htc).
          simpl in Htimes. rewrite <- Heq in Htimes.
          apply throttled_same_time in Htimes. congruence.
        * apply NoDup_singleton.
      + apply Forall_app. split; [exact Hall'|]. constructor; [|constructor].
        simpl. repeat split; auto. apply elem_of_app. right. left.
      + apply Forall_app. split.
        * eapply Forall_impl; [exact Htimes|]. intros tc Htc. simpl in *.
          destruct (decide (cmd_entity_id c = cmd_entity_id tc.2)) as [<-|Hne].
          -- apply lookup_insert_eq.
          -- now rewrite lookup_insert_ne.
        * constructor; [|constructor]. simpl. apply lookup_insert_eq. }
  destruct Hgen as (added & H1 & H2 & H3 & _). now exists added.
Qed.





End BridgeMore.

(** ** The automation client *)

Section ClientFacts.

Import Mapper Client.

Implicit Types (self : HAClient) (command : Request).

Lemma read_response_found id messages msg rest :
  read_response id messages = (Some msg, rest) ->
  msg_id msg = Some id /\
  exists skipped,
    messages = skipped ++ msg :: rest /\
    Forall (fun m => msg_id m <> Some id) skipped.
Proof.
  revert msg rest. induction messages as [|m ms IH]; intros msg rest; simpl.
  - discriminate.
  - case_bool_decide as Hid.
    + intros [= <- <-]. split; [exact Hid|]. exists []. split; [reflexivity|].
      constructor.
    + intros H. destruct (IH _ _ H) as (Hmsg & skipped & -> & Hall).
      split; [exact Hmsg|]. exists (m :: skipped). split; [reflexivity|].
      now constructor.
Qed.

Lemma read_response_none id messages rest :
  read_response id messages = (None, rest) ->
  rest = [] /\ Forall (fun m => msg_id m <> Some id) messages.
Proof.
  induction messages as [|m ms IH]; simpl.
  - intros [= <-]. split; [reflexivity | constructor].
  - case_bool_decide as Hid; [discriminate|].
    intros H. destruct (IH H) as [-> Hall]. split; [reflexivity|].
    now constructor.
Qed.

Lemma send_command_connected self command :
  connected self = true ->
  connected (send_command self command).1 = true /\
  message_id (send_command self command).1 = message_id self + 1 /\
  outbox (send_command self command).1
  = outbox self ++ [(Some (message_id self), command)].
Proof.
  intros Hc. unfold send_command. rewrite Hc. simpl.
  destruct (read_response _ _). simpl. auto.
Qed.

Lemma send_all_ids commands : forall self,
  connected self = true ->
  connected (send_all self commands) = true /\
  message_id (send_all self commands)
  = message_id self + Z.of_nat (length commands) /\
  outbox (send_all self commands)
  = outbox self
    ++ imap (fun i command => (Some (message_id self + Z.of_nat i), command))
         commands.
Proof.
  induction commands as [|c rest IH]; intros self Hc.
  - simpl. rewrite app_nil_r. repeat split; auto. lia.
  - unfold send_all in *. cbn [foldl].
    destruct (send_command_connected self c Hc) as (Hc' & Hid & Hout).
    destruct (IH _ Hc') as (IHc & IHid & IHout).
    split; [exact IHc|]. split.
    + rewrite IHid, Hid. simpl length. lia.
    + rewrite IHout, Hout, Hid. rewrite <- app_assoc. cbn [imap app].
      rewrite Z.add_0_r. do 2 f_equal.
      apply imap_ext. intros i x _. simpl. do 2 f_equal. lia.
Qed.

(** X29. Requests and responses of a connected client. The commands it
    sends get consecutive ids, starting at its counter (1 on a new client):
    no id is used twice, whether the commands are answered or not. The
    response [send_command] returns is the first incoming message with the
    id of the command; the messages before it are discarded, the ones after
    it stay for the next call; it raises when the connection is closed
    before such a message comes. A service call returns whenever a response
    comes, also when the response reports a failure. A client that is not
    connected raises at once and uses no id. *)
Theorem request_ids_and_responses self commands command data :
  (connected self = false -> send_command self command = (self, None)) /\
  (connected self = true ->
   message_id (send_all self commands)
   = message_id self + Z.of_nat (length commands) /\
   outbox (send_all self commands)
   = outbox self
     ++ imap (fun i command => (Some (message_id self + Z.of_nat i), command))
          commands /\
   (forall msg,
      (send_command self command).2 = Some msg ->
      msg_id msg = Some (message_id self) /\
      exists skipped,
        inbox self = skipped ++ msg :: inbox (send_command self command).1 /\
        Forall (fun m => msg_id m <> Some (message_id self)) skipped) /\
   ((send_command self command).2 = None <->
    Forall (fun m => msg_id m <> Some (message_id self)) (inbox self)) /\
   ((turn_on self data).2 = Bridge.Returned <->
    exists msg, msg ∈ inbox self /\ msg_id msg = Some (message_id self))).
Proof.
  split.
  - intros Hc. unfold send_command. now rewrite Hc.
  - intros Hc.
    destruct (send_all_ids commands self Hc) as (_ & Hid & Hout).
    split; [exact Hid|]. split; [exact Hout|].
    assert (Hsend : forall cmd,
              send_command self cmd
              = ({| message_id := message_id self + 1;
                    connected := connected self;
                    outbox := outbox self ++ [(Some (message_id self), cmd)];
                    inbox := (read_response (message_id self) (inbox self)).2 |},
                 (read_response (message_id self) (inbox self)).1)).
    { intros cmd. unfold send_command. rewrite Hc. simpl.
      now destruct (read_response _ _). }
    split; [|split].
    + intros msg. rewrite Hsend. simpl.
      destruct (read_response (message_id self) (inbox self)) as [r rest] eqn:E.
      simpl. intros ->. now apply read_response_found in E.
    + rewrite Hsend. simpl.
      destruct (read_response (message_id self) (inbox self)) as [[msg|] rest] eqn:E;
        simpl.
      * split; [discriminate|]. intros Hall. exfalso.
        apply read_response_found in E as (Hid' & skipped & Heq & _).
        rewrite Heq in Hall. apply Forall_app in Hall as [_ Hall].
        apply Forall_cons in Hall as [Hm _]. contradiction.
      * split; [intros _|reflexivity].
        now apply read_response_none in E as [_ Hall].
    + unfold turn_on, call_service. rewrite Hsend. simpl.
      destruct (read_response (message_id self) (inbox self)) as [[msg|] rest] eqn:E;
        simpl.
      * split; [intros _|reflexivity].
        apply read_response_found in E as (Hid' & skipped & Heq & _).
        exists msg. split; [|exact Hid']. rewrite Heq.
        apply elem_of_app. right. left.
      * split; [discriminate|]. intros (msg & Hin & Hmsg). exfalso.
        apply read_response_none in E as [_ Hall].
        rewrite Forall_forall in Hall. now apply (Hall msg).
Qed.

(** X30. The handshake of [connect]. The client ends up connected exactly
    when the platform first sends a message of type auth_required and then,
    after the client's auth message, one of type auth_ok. Any other course
    (another type, or the connection closed) makes [connect] raise and
    leaves the client disconnected, so that every later command raises
    without using an id. The handshake uses no id: a client that has just
    connected still numbers its first command 1. *)
Theorem connect_handshake messages command :
  ((connect (new_client messages)).2 = true <->
   exists first second rest,
     messages = first :: second :: rest /\
     msg_type first = "auth_required"%string /\
     msg_type second = "auth_ok"%string) /\
  connected (connect (new_client messages)).1 = (connect (new_client messages)).2 /\
  message_id (connect (new_client messages)).1 = 1 /\
  ((connect (new_client messages)).2 = false ->
   send_command (connect (new_client messages)).1 command
   = ((connect (new_client messages)).1, None)) /\
  ((connect (new_client messages)).2 = true ->
   outbox (send_command (connect (new_client messages)).1 command).1
   = [(None, auth); (Some 1, command)]).
Proof.
  unfold connect, new_client. simpl.
  destruct messages as [|first [|second rest]]; simpl.
  - repeat split; try discriminate; auto.
    intros (f & s & r & [=] & _).
  - destruct (String.eqb_spec (msg_type first) "auth_required") as [E1|E1];
      simpl; (repeat split; try discriminate; auto);
      intros (f & s & r & [=] & _).
  - destruct (String.eqb_spec (msg_type first) "auth_required") as [E1|E1];
      simpl.
    + destruct (String.eqb_spec (msg_type second) "auth_ok") as [E2|E2]; simpl.
      * repeat split; try discriminate; auto.
        -- intros _. now exists first, second, rest.
        -- intros _. unfold send_command. simpl.
           now destruct (read_response 1 rest).
      * repeat split; try discriminate; auto.
        intros (f & s & r & [= <- <- <-] & _ & H). contradiction.
    + repeat split; try discriminate; auto.
      intros (f & s & r & [= <- <- <-] & H & _). contradiction.
Qed.

End ClientFacts.
